(** * A shallow embedding of the trading chart component

    Source: [src/chart/trading-chart.tsx].  The development follows the
    file top to bottom: the numeric helpers and formatters, the per-instance
    mutable records (axis bounds, interaction state, gradient cache), the
    bounds computation, the gradient cache, [render] and the pointer
    handlers.  The definitions come first; the theorems about them follow.

    Numbers.  A JavaScript [number] is modelled by the type [num]: an exact
    rational, or one of the three special values [NaN], [+Infinity],
    [-Infinity].  Arithmetic on finite values is exact (binary64 rounding is
    not modelled, and [-0] is identified with [+0]); the special values follow
    the IEEE rules the source relies on: [x / 0], [Infinity - Infinity],
    comparisons with [NaN], and the truthiness of [0] and [NaN]. *)

From Stdlib Require Import ZArith QArith Qround Qabs Qminmax.
From Stdlib Require Import Lia Lqa List String Ascii Bool DecimalString.
Import ListNotations.

Set Implicit Arguments.

(** ** JavaScript numbers *)

Module JS.

Inductive num : Type :=
| NaN
| NInf
| PInf
| Fin (q : Q).

Definition zero : num := Fin 0.
Definition one : num := Fin 1.

Definition is_fin (a : num) : bool :=
  match a with Fin _ => true | _ => false end.

Definition is_nan (a : num) : bool :=
  match a with NaN => true | _ => false end.

(** Sign of a rational as a comparison with zero. *)
Definition qsign (q : Q) : comparison := Qcompare q 0.

Definition neg (a : num) : num :=
  match a with
  | NaN => NaN
  | NInf => PInf
  | PInf => NInf
  | Fin q => Fin (- q)
  end.

Definition add (a b : num) : num :=
  match a, b with
  | NaN, _ | _, NaN => NaN
  | PInf, NInf | NInf, PInf => NaN
  | PInf, _ | _, PInf => PInf
  | NInf, _ | _, NInf => NInf
  | Fin x, Fin y => Fin (x + y)
  end.

Definition sub (a b : num) : num := add a (neg b).

(** An infinity of the sign of [c]; [0 * Infinity] is [NaN]. *)
Definition inf_of_sign (c : comparison) : num :=
  match c with Gt => PInf | Lt => NInf | Eq => NaN end.

Definition flip (c : comparison) : comparison := CompOpp c.

Definition mul (a b : num) : num :=
  match a, b with
  | NaN, _ | _, NaN => NaN
  | PInf, PInf | NInf, NInf => PInf
  | PInf, NInf | NInf, PInf => NInf
  | PInf, Fin y | Fin y, PInf => inf_of_sign (qsign y)
  | NInf, Fin y | Fin y, NInf => inf_of_sign (flip (qsign y))
  | Fin x, Fin y => Fin (x * y)
  end.

(** Division.  A finite non-zero value over zero is an infinity of the sign
    of the dividend, [0 / 0] is [NaN]; a finite value over an infinity is
    [0]. *)
Definition div (a b : num) : num :=
  match a, b with
  | NaN, _ | _, NaN => NaN
  | PInf, PInf | PInf, NInf | NInf, PInf | NInf, NInf => NaN
  | PInf, Fin y => match qsign y with Lt => NInf | _ => PInf end
  | NInf, Fin y => match qsign y with Lt => PInf | _ => NInf end
  | Fin _, PInf | Fin _, NInf => Fin 0
  | Fin x, Fin y =>
      match qsign y with
      | Eq => inf_of_sign (qsign x)
      | _ => Fin (x / y)
      end
  end.

(** [a < b]; every comparison with [NaN] is [false]. *)
Definition lt (a b : num) : bool :=
  match a, b with
  | NaN, _ | _, NaN => false
  | _, NInf => false
  | NInf, _ => true
  | PInf, _ => false
  | _, PInf => true
  | Fin x, Fin y => match Qcompare x y with Lt => true | _ => false end
  end.

(** [a === b] on numbers. *)
Definition eqb (a b : num) : bool :=
  match a, b with
  | NInf, NInf | PInf, PInf => true
  | Fin x, Fin y => Qeq_bool x y
  | _, _ => false
  end.

Definition gt (a b : num) : bool := lt b a.
Definition le (a b : num) : bool := lt a b || eqb a b.
Definition ge (a b : num) : bool := le b a.

(** Truthiness: [0] and [NaN] are falsy. *)
Definition truthy (a : num) : bool :=
  match a with
  | NaN => false
  | Fin q => negb (Qeq_bool q 0)
  | _ => true
  end.

(** [a || b] on numbers. *)
Definition or_else (a b : num) : num := if truthy a then a else b.

Definition abs (a : num) : num :=
  match a with
  | NaN => NaN
  | NInf | PInf => PInf
  | Fin q => Fin (Qabs q)
  end.

(** [Math.max] and [Math.min]: [NaN] if either argument is. *)
Definition max (a b : num) : num :=
  match a, b with
  | NaN, _ | _, NaN => NaN
  | _, _ => if lt a b then b else a
  end.

Definition min (a b : num) : num :=
  match a, b with
  | NaN, _ | _, NaN => NaN
  | _, _ => if lt b a then b else a
  end.

(** [Math.round]: the nearest integer, ties toward [+Infinity]. *)
Definition round (a : num) : num :=
  match a with
  | Fin q => Fin (inject_Z (Qfloor (q + (1 # 2))))
  | _ => a
  end.

Definition of_Z (z : Z) : num := Fin (inject_Z z).
Definition of_nat (n : nat) : num := of_Z (Z.of_nat n).

(** Equality of values: the rationals are compared by [Qeq]. *)
Definition same (a b : num) : Prop :=
  match a, b with
  | NaN, NaN | NInf, NInf | PInf, PInf => True
  | Fin x, Fin y => x == y
  | _, _ => False
  end.

End JS.

Import JS.

Declare Scope num_scope.
Delimit Scope num_scope with num.
Bind Scope num_scope with num.
Infix "+" := add : num_scope.
Infix "-" := sub : num_scope.
Infix "*" := mul : num_scope.
Infix "/" := div : num_scope.
Infix "<?" := lt : num_scope.
Infix ">?" := gt : num_scope.
Infix ">=?" := ge : num_scope.
Infix "=?" := eqb : num_scope.
Infix "=~" := same (at level 70) : num_scope.

(** ** Numeric helpers (lines 48-63) *)

Definition Y_STEPS : num := of_Z 5.
Definition Y_SMOOTHING : num := Fin 0.15.
Definition LONG_PRESS_DELAY : num := of_Z 300.
Definition DASH_LENGTH : num := of_Z 4.
Definition GAP_LENGTH : num := of_Z 4.

Definition MARKER_UP_COLOR : Z := 0x22c55e.
Definition MARKER_DOWN_COLOR : Z := 0xef4444.

(** [Number.EPSILON] is [2^-52]. *)
Definition Number_EPSILON : num := Fin (1 # (2 ^ 52)).

Definition clamp (value lo hi : num) : num :=
  JS.min (JS.max value lo) hi.

Definition lerp (a b t : num) : num := (a + (b - a) * t)%num.

(** ** Formatter (lines 72-101)

    [toFixed], [toPrecision] and [toLocaleString] are defined by ECMAScript
    on the mathematical value of the number, so the exact-rational reading is
    theirs.  Two renderings are the host's: the shortest round-trip decimal
    of a value of magnitude [10^21] or more (the only case in which
    [toFixed] defers to [Number::toString]) and the locale date rendering of
    [formatTimestamp].  The host also tells whether [navigator.vibrate]
    exists. *)

Record Host : Type := {
  NumberToString : Q -> string;
  toLocaleDateString : num -> string;
  vibrate_supported : bool
}.

Local Open Scope string_scope.

Definition digits (n : Z) : string :=
  NilZero.string_of_uint (N.to_uint (Z.to_N n)).

Fixpoint zeros (k : nat) : string :=
  match k with
  | O => ""
  | S k' => String "0" (zeros k')
  end.

Definition pow10 (k : nat) : Z := 10 ^ Z.of_nat k.

(** The integer closest to [q], the larger one on a tie. *)
Definition nearest (q : Q) : Z := Qfloor (q + (1 # 2)).

Definition qneg (q : Q) : bool :=
  match Qcompare q 0 with Lt => true | _ => false end.

Definition sign_prefix (q : Q) : string := if qneg q then "-" else "".

(** [n] written with exactly [f] fractional digits, [n] being the value
    scaled by [10^f] (steps 8-10 of [Number.prototype.toFixed]). *)
Definition fixed_digits (n : Z) (f : nat) : string :=
  let m := digits n in
  match f with
  | O => m
  | _ =>
      let k := String.length m in
      let m' := if Nat.leb k f then zeros (S f - k) ++ m else m in
      let k' := String.length m' in
      substring 0 (k' - f) m' ++ "." ++ substring (k' - f) f m'
  end.

Definition toFixed (host : Host) (x : num) (f : nat) : string :=
  match x with
  | NaN => "NaN"
  | PInf => "Infinity"
  | NInf => "-Infinity"
  | Fin q =>
      let a := Qabs q in
      if Qle_bool (inject_Z (pow10 21)) a
      then sign_prefix q ++ NumberToString host a
      else sign_prefix q ++ fixed_digits (nearest (a * inject_Z (pow10 f))) f
  end.

(** [10^e] as a rational, for an exponent of either sign. *)
Definition qpow10 (e : Z) : Q :=
  match e with
  | Z.neg p => 1 # Z.to_pos (10 ^ Z.pos p)
  | _ => inject_Z (10 ^ e)
  end.

(** The decimal exponent of [a > 0]: the [e] with [10^e <= a < 10^(e+1)]. *)
Fixpoint below_one_exp (fuel : nat) (a : Q) (k : Z) : Z :=
  match fuel with
  | O => (- k)%Z
  | S fuel' =>
      if Qle_bool 1 (a * inject_Z (10 ^ k)) then (- k)%Z
      else below_one_exp fuel' a (k + 1)%Z
  end.

Definition exponent10 (a : Q) : Z :=
  if Qle_bool 1 a
  then Z.of_nat (String.length (digits (Qfloor a))) - 1
  else below_one_exp (Pos.size_nat (Qden a)) a 1.

Definition toPrecision (x : num) (p : nat) : string :=
  match x with
  | NaN => "NaN"
  | PInf => "Infinity"
  | NInf => "-Infinity"
  | Fin q =>
      let s := sign_prefix q in
      let a := Qabs q in
      let '(m, e) :=
        if Qeq_bool a 0 then (zeros p, 0%Z)
        else
          let e0 := exponent10 a in
          let n := nearest (a / qpow10 (e0 - Z.of_nat p + 1)) in
          if Z.eqb n (pow10 p) then (digits (pow10 (p - 1)), (e0 + 1)%Z)
          else (digits n, e0) in
      if (e <? -6)%Z || (Z.of_nat p <=? e)%Z then
        let m' :=
          match p with
          | 1%nat => m
          | _ => substring 0 1 m ++ "." ++ substring 1 (p - 1) m
          end in
        let c := if (0 <=? e)%Z then "+" else "-" in
        s ++ m' ++ "e" ++ c ++ digits (Z.abs e)
      else if Z.eqb e (Z.of_nat p - 1) then s ++ m
      else if (0 <=? e)%Z then
        let i := S (Z.to_nat e) in
        s ++ substring 0 i m ++ "." ++ substring i (p - i) m
      else s ++ "0." ++ zeros (Z.to_nat (- (e + 1))) ++ m
  end.

(** Thousands separators of the en-US locale, on a string of digits. *)
Fixpoint group_from (k : nat) (s : string) : string :=
  match s with
  | EmptyString => ""
  | String c rest =>
      let tail := group_from (k - 1) rest in
      match k with
      | 1%nat => String c tail
      | _ => if Nat.eqb ((k - 1) mod 3) 0 then String c ("," ++ tail)
             else String c tail
      end
  end.

Definition grouped (n : Z) : string :=
  let m := digits n in group_from (String.length m) m.

(** [x.toLocaleString("en-US", { maximumFractionDigits: 0 })]. *)
Definition toLocaleString0 (x : num) : string :=
  match x with
  | NaN => "NaN"
  | PInf => "∞"
  | NInf => "-∞"
  | Fin q => sign_prefix q ++ grouped (nearest (Qabs q))
  end.

(** The regular expression [/^0\.(0+)(\d{4})/] of [formatPrice].  [(0+)] is
    greedy: it first takes the whole run of zeros after ["0."] and gives
    zeros back, one at a time, while the four digits of the second group
    cannot be read after it. *)

Definition is_digit (c : ascii) : bool :=
  let n := nat_of_ascii c in Nat.leb 48 n && Nat.leb n 57.

Definition is_zero (c : ascii) : bool := Ascii.eqb c "0".

Fixpoint all_digits (s : string) : bool :=
  match s with
  | EmptyString => true
  | String c rest => is_digit c && all_digits rest
  end.

Fixpoint zero_run (s : string) : nat :=
  match s with
  | String c rest => if is_zero c then S (zero_run rest) else O
  | EmptyString => O
  end.

(** The four digits read at offset [k] of [s], if they are there. *)
Definition four_digits (k : nat) (s : string) : option string :=
  let d := substring k 4 s in
  if Nat.eqb (String.length d) 4 && all_digits d then Some d else None.

Fixpoint backtrack (k : nat) (s : string) : option (nat * string) :=
  match k with
  | O => None
  | S k' =>
      match four_digits k s with
      | Some d => Some (k, d)
      | None => backtrack k' s
      end
  end.

(** The length of group 1 and the text of group 2 of the match. *)
Definition match_leading_zeros (str : string) : option (nat * string) :=
  match str with
  | String "0" (String "." rest) => backtrack (zero_run rest) rest
  | _ => None
  end.

Definition nat_to_string (n : nat) : string := digits (Z.of_nat n).

Definition formatPrice (host : Host) (price : num) : string :=
  if (price =? zero)%num then "0"
  else if (price >=? of_Z 10000)%num then toLocaleString0 price
  else if (price >=? of_Z 100)%num then toFixed host price 2
  else if (price >=? of_Z 1)%num then toFixed host price 4
  else
    let str := toFixed host price 20 in
    match match_leading_zeros str with
    | Some (n, d) => "0.0(" ++ nat_to_string n ++ ")" ++ d
    | None => toPrecision price 4
    end.

Definition formatCurrencyCompact (host : Host) (value : num) : string :=
  if (value =? zero)%num then "$0"
  else if (value >=? of_Z 1000000000)%num
  then "$" ++ toFixed host (value / of_Z 1000000000)%num 2 ++ "B"
  else if (value >=? of_Z 1000000)%num
  then "$" ++ toFixed host (value / of_Z 1000000)%num 2 ++ "M"
  else if (value >=? of_Z 1000)%num
  then "$" ++ toFixed host (value / of_Z 1000)%num 1 ++ "K"
  else "$" ++ toFixed host value 2.

Definition formatTimestamp (host : Host) (timestamp : num) : string :=
  toLocaleDateString host (timestamp * of_Z 1000)%num.

(** [hexToNumber] (lines 103-111): [Number.parseInt(hex.replace("#", ""), 16)].
    The module-level [Map] only memoises this pure function. *)

Definition hex_value (c : ascii) : option Z :=
  let n := Z.of_nat (nat_of_ascii c) in
  if (48 <=? n)%Z && (n <=? 57)%Z then Some (n - 48)%Z
  else if (97 <=? n)%Z && (n <=? 102)%Z then Some (n - 87)%Z
  else if (65 <=? n)%Z && (n <=? 70)%Z then Some (n - 55)%Z
  else None.

(** Removes the first occurrence of [#]. *)
Fixpoint remove_hash (s : string) : string :=
  match s with
  | EmptyString => ""
  | String c rest => if Ascii.eqb c "#" then rest else String c (remove_hash rest)
  end.

Definition is_space (c : ascii) : bool :=
  let n := nat_of_ascii c in
  Nat.eqb n 32 || (Nat.leb 9 n && Nat.leb n 13).

Fixpoint trim_start (s : string) : string :=
  match s with
  | String c rest => if is_space c then trim_start rest else s
  | EmptyString => ""
  end.

(** The hexadecimal digits at the head of [s], folded into [acc]; [None]
    when there is none. *)
Fixpoint hex_prefix (s : string) (acc : option Z) : option Z :=
  match s with
  | String c rest =>
      match hex_value c with
      | Some d =>
          hex_prefix rest (Some (match acc with Some a => a * 16 + d | None => d end)%Z)
      | None => acc
      end
  | EmptyString => acc
  end.

Definition strip_0x (s : string) : string :=
  match s with
  | String "0" (String "x" rest) | String "0" (String "X" rest) => rest
  | _ => s
  end.

Definition parseInt16 (s : string) : num :=
  let t := trim_start s in
  let '(negative, u) :=
    match t with
    | String "-" rest => (true, rest)
    | String "+" rest => (false, rest)
    | _ => (false, t)
    end in
  match hex_prefix (strip_0x u) None with
  | Some v => of_Z (if negative then - v else v)
  | None => NaN
  end.

Definition hexToNumber (hex : string) : num := parseInt16 (remove_hash hex).

(** ** Data model (lines 21-46, 113-131) *)

Record PricePoint : Type := {
  timestamp : num;
  price : num
}.

Inductive MarkerType : Type := buy | sell.

Record ChartMarker : Type := {
  marker_timestamp : num;
  marker_price : num;
  marker_type : MarkerType;
  marker_label : option string
}.

Record Padding : Type := {
  top : num;
  right : num;
  bottom : num;
  left : num
}.

Definition PADDING_WITH_LABELS : Padding :=
  {| top := of_Z 20; right := of_Z 60; bottom := of_Z 30; left := of_Z 10 |}.

Definition PADDING_WITHOUT_LABELS : Padding :=
  {| top := of_Z 10; right := of_Z 10; bottom := of_Z 10; left := of_Z 10 |}.

(** The viewport, as measured by [getBoundingClientRect]: finite numbers. *)
Record Dimensions : Type := {
  dim_width : Q;
  dim_height : Q
}.

(** What the callbacks of one React render close over: the props with
    their defaults applied, the memoised [data], and the [dimensions]
    state. *)
Record Props : Type := {
  data : list PricePoint;
  markers : list ChartMarker;
  lineColor : string;
  gridColor : string;
  crosshairColor : string;
  showAxisLabels : bool;
  showGrid : bool;
  onPriceSelect : bool;
  currentMcap : option num;
  currentPrice : option num;
  dimensions : Dimensions
}.

Definition padding (p : Props) : Padding :=
  if showAxisLabels p then PADDING_WITH_LABELS else PADDING_WITHOUT_LABELS.

Record Colors : Type := {
  line : num;
  grid : num;
  crosshair : num
}.

Definition colors (p : Props) : Colors :=
  {| line := hexToNumber (lineColor p);
     grid := hexToNumber (gridColor p);
     crosshair := hexToNumber (crosshairColor p) |}.

(** ** The scene graph (lines 154-170, 317-343)

    A [Graphics] layer is the list of the drawing calls made on it since it
    was last cleared, oldest first; a [Container] is the list of its
    children. *)

Inductive DrawCmd : Type :=
| SetStrokeStyle (width color : num) (rounded : bool)
| MoveTo (x y : num)
| LineTo (x y : num)
| Stroke
| ClosePath
| Fill (color : num) (alpha : option num)
| Circle (x y radius : num)
| RoundRect (x y w h radius : num).

Inductive TextStyleName : Type :=
| style_label
| style_timestamp
| style_value
| style_mcap.

Record TextNode : Type := {
  text : string;
  style : TextStyleName;
  anchor : num * num;
  position : num * num
}.

Record Sprite : Type := {
  sprite_texture : option nat;
  sprite_position : num * num;
  sprite_size : option (num * num)
}.

Record Layers : Type := {
  gridLayer : list DrawCmd;
  gradientSprite : Sprite;
  gradientMask : list DrawCmd;
  chartLayer : list DrawCmd;
  labelsContainer : list TextNode;
  overlayLayer : list DrawCmd;
  tooltipContainer : list TextNode
}.

Definition new_sprite : Sprite :=
  {| sprite_texture := None;
     sprite_position := (zero, zero);
     sprite_size := None |}.

Definition new_layers : Layers :=
  {| gridLayer := []; gradientSprite := new_sprite; gradientMask := [];
     chartLayer := []; labelsContainer := []; overlayLayer := [];
     tooltipContainer := [] |}.

(** ** Per-instance mutable state (lines 147-244) *)

Record AxisState : Type := {
  axis_min : num;
  axis_max : num;
  targetMin : num;
  targetMax : num
}.

Record Interaction : Type := {
  isLongPress : bool;
  longPressTimer : option nat;
  crosshairX : num;
  crosshairY : num;
  selectedIndex : num
}.

(** A gradient texture: the size of the canvas it was made from and the
    colour stops of its fill. *)
Record TextureData : Type := {
  texture_width : num;
  texture_height : num;
  stops : list (num * string)
}.

Record GradientCache : Type := {
  texture : option nat;
  cache_width : num;
  cache_height : num;
  cache_color : string
}.

(** The textures made so far, a texture being named by its index, and the
    [destroy] calls made on them, latest first. *)
Record Gpu : Type := {
  textures : list TextureData;
  destroyed : list nat
}.

Definition alive (g : Gpu) (t : nat) : Prop :=
  (t < List.length (textures g))%nat /\ ~ In t (destroyed g).

(** The component instance.  [appRef] tells whether [appRef.current] holds
    an application.  [frames] and [timeouts] are the callbacks the
    host still has to run; [presented] counts the calls of [app.render()];
    [selections] and [vibrations] log the calls of [onPriceSelect] and
    [navigator.vibrate], latest first. *)
Record Chart : Type := {
  appRef : bool;
  graphicsRef : option Layers;
  gradientCacheRef : GradientCache;
  textStylesRef : bool;
  yAxisRef : AxisState;
  interactionRef : Interaction;
  animationRef : nat;
  isPixiReady : bool;
  gpu : Gpu;
  frames : list nat;
  timeouts : list nat;
  next_handle : nat;
  presented : nat;
  capture : list num;
  selections : list (option PricePoint);
  vibrations : list num
}.

Definition empty_cache : GradientCache :=
  {| texture := None; cache_width := zero; cache_height := zero;
     cache_color := "" |}.

Definition initial : Chart :=
  {| appRef := false;
     graphicsRef := None;
     gradientCacheRef := empty_cache;
     textStylesRef := false;
     yAxisRef := {| axis_min := zero; axis_max := one;
                    targetMin := zero; targetMax := one |};
     interactionRef := {| isLongPress := false; longPressTimer := None;
                          crosshairX := of_Z (-1); crosshairY := of_Z (-1);
                          selectedIndex := of_Z (-1) |};
     animationRef := 0;
     isPixiReady := false;
     gpu := {| textures := []; destroyed := [] |};
     frames := [];
     timeouts := [];
     next_handle := 1;
     presented := 0;
     capture := [];
     selections := [];
     vibrations := [] |}.

Definition set_graphics (l : option Layers) (c : Chart) : Chart :=
  {| appRef := appRef c; graphicsRef := l;
     gradientCacheRef := gradientCacheRef c; textStylesRef := textStylesRef c;
     yAxisRef := yAxisRef c; interactionRef := interactionRef c;
     animationRef := animationRef c; isPixiReady := isPixiReady c;
     gpu := gpu c; frames := frames c; timeouts := timeouts c;
     next_handle := next_handle c; presented := presented c;
     capture := capture c; selections := selections c;
     vibrations := vibrations c |}.

Definition set_yAxis (a : AxisState) (c : Chart) : Chart :=
  {| appRef := appRef c; graphicsRef := graphicsRef c;
     gradientCacheRef := gradientCacheRef c; textStylesRef := textStylesRef c;
     yAxisRef := a; interactionRef := interactionRef c;
     animationRef := animationRef c; isPixiReady := isPixiReady c;
     gpu := gpu c; frames := frames c; timeouts := timeouts c;
     next_handle := next_handle c; presented := presented c;
     capture := capture c; selections := selections c;
     vibrations := vibrations c |}.

Definition set_interaction (i : Interaction) (c : Chart) : Chart :=
  {| appRef := appRef c; graphicsRef := graphicsRef c;
     gradientCacheRef := gradientCacheRef c; textStylesRef := textStylesRef c;
     yAxisRef := yAxisRef c; interactionRef := i;
     animationRef := animationRef c; isPixiReady := isPixiReady c;
     gpu := gpu c; frames := frames c; timeouts := timeouts c;
     next_handle := next_handle c; presented := presented c;
     capture := capture c; selections := selections c;
     vibrations := vibrations c |}.

Definition set_gradient (g : GradientCache) (u : Gpu) (c : Chart) : Chart :=
  {| appRef := appRef c; graphicsRef := graphicsRef c;
     gradientCacheRef := g; textStylesRef := textStylesRef c;
     yAxisRef := yAxisRef c; interactionRef := interactionRef c;
     animationRef := animationRef c; isPixiReady := isPixiReady c;
     gpu := u; frames := frames c; timeouts := timeouts c;
     next_handle := next_handle c; presented := presented c;
     capture := capture c; selections := selections c;
     vibrations := vibrations c |}.

Definition set_textStyles (b : bool) (c : Chart) : Chart :=
  {| appRef := appRef c; graphicsRef := graphicsRef c;
     gradientCacheRef := gradientCacheRef c; textStylesRef := b;
     yAxisRef := yAxisRef c; interactionRef := interactionRef c;
     animationRef := animationRef c; isPixiReady := isPixiReady c;
     gpu := gpu c; frames := frames c; timeouts := timeouts c;
     next_handle := next_handle c; presented := presented c;
     capture := capture c; selections := selections c;
     vibrations := vibrations c |}.

(** ** Axis bounds (lines 376-401) *)

Record Bounds : Type := {
  bounds_min : num;
  bounds_max : num
}.

(** The loop of lines 382-386, from the running [min] and [max]. *)
Fixpoint scan (chartData : list PricePoint) (mn mx : num) : num * num :=
  match chartData with
  | [] => (mn, mx)
  | point :: rest =>
      let mn' := if (price point <? mn)%num then price point else mn in
      let mx' := if (price point >? mx)%num then price point else mx in
      scan rest mn' mx'
  end.

Definition calculateYBounds (chartData : list PricePoint) : Bounds :=
  match chartData with
  | [] => {| bounds_min := zero; bounds_max := one |}
  | _ =>
      let '(mn, mx) := scan chartData PInf NInf in
      if (mn =? mx)%num || (JS.abs (mx - mn) <? Number_EPSILON)%num then
        let value := mn in
        let p := if (value >? zero)%num then (value * Fin 0.1)%num
                 else Fin 0.0000001 in
        {| bounds_min := (value - p)%num; bounds_max := (value + p)%num |}
      else
        let range := (mx - mn)%num in
        let rangePadding := (range * Fin 0.1)%num in
        {| bounds_min := (mn - rangePadding)%num;
           bounds_max := (mx + rangePadding)%num |}
  end.

(** ** Gradient cache (lines 403-444)

    [ctx] tells whether [canvas.getContext("2d")] returns a context. *)

Definition destroy (t : nat) (g : Gpu) : Gpu :=
  {| textures := textures g; destroyed := t :: destroyed g |}.

Definition gradient_stops (color : string) : list (num * string) :=
  [ (Fin 0, color ++ "40"); (Fin 0.2, color ++ "30"); (Fin 0.4, color ++ "20");
    (Fin 0.6, color ++ "10"); (Fin 0.8, color ++ "08"); (Fin 1, color ++ "00") ].

(** [Texture.from(canvas)]. *)
Definition upload (d : TextureData) (g : Gpu) : nat * Gpu :=
  (List.length (textures g),
   {| textures := textures g ++ [d]; destroyed := destroyed g |}).

Definition cache_hit (cache : GradientCache) (w h : num) (color : string)
  : option nat :=
  match texture cache with
  | Some t =>
      if (cache_width cache =? w)%num && (cache_height cache =? h)%num
         && String.eqb (cache_color cache) color
      then Some t else None
  | None => None
  end.

Definition getGradientTexture (ctx : bool) (w h : num) (color : string)
    (c : Chart) : option nat * Chart :=
  let cache := gradientCacheRef c in
  match cache_hit cache w h color with
  | Some t => (Some t, c)
  | None =>
      let g1 :=
        match texture cache with
        | Some t => destroy t (gpu c)
        | None => gpu c
        end in
      if negb ctx then (None, set_gradient cache g1 c)
      else
        let '(t, g2) :=
          upload {| texture_width := w; texture_height := h;
                    stops := gradient_stops color |} g1 in
        (Some t,
         set_gradient {| texture := Some t; cache_width := w;
                         cache_height := h; cache_color := color |} g2 c)
  end.

(** ** Coordinate mapping (lines 485-499) *)

Definition width (p : Props) : num := Fin (dim_width (dimensions p)).
Definition height (p : Props) : num := Fin (dim_height (dimensions p)).

Definition chartWidth (p : Props) : num :=
  (width p - left (padding p) - right (padding p))%num.

Definition chartHeight (p : Props) : num :=
  (height p - top (padding p) - bottom (padding p))%num.

Definition pointSpacing (p : Props) : num :=
  if Nat.ltb 1 (List.length (data p))
  then (chartWidth p / of_nat (List.length (data p) - 1))%num
  else zero.

Definition yRange (a : AxisState) : num :=
  or_else (axis_max a - axis_min a)%num one.

Definition yScale (p : Props) (a : AxisState) : num :=
  (chartHeight p / yRange a)%num.

Definition priceToY (p : Props) (a : AxisState) (price : num) : num :=
  (top (padding p) + chartHeight p - (price - axis_min a) * yScale p a)%num.

Definition indexToX (p : Props) (index : num) : num :=
  (left (padding p) + index * pointSpacing p)%num.

(** ** Axis animation (lines 488-489, 696-702) *)

Definition advance (a : AxisState) : AxisState :=
  {| axis_min := lerp (axis_min a) (targetMin a) Y_SMOOTHING;
     axis_max := lerp (axis_max a) (targetMax a) Y_SMOOTHING;
     targetMin := targetMin a;
     targetMax := targetMax a |}.

Definition needsAnimation (a : AxisState) : bool :=
  (JS.abs (axis_min a - targetMin a) >? Fin 0.0001)%num
  || (JS.abs (axis_max a - targetMax a) >? Fin 0.0001)%num.

(** ** Array access

    [data[i]] for a number [i]: an element when [i] is an integer within the
    array, [undefined] otherwise. *)

Definition as_index (i : num) : option nat :=
  match i with
  | Fin q =>
      if Qeq_bool q (inject_Z (Qfloor q)) && (0 <=? Qfloor q)%Z
      then Some (Z.to_nat (Qfloor q)) else None
  | _ => None
  end.

Definition data_at (l : list PricePoint) (i : num) : option PricePoint :=
  match as_index i with
  | Some k => nth_error l k
  | None => None
  end.

Definition indexed (l : list PricePoint) : list (nat * PricePoint) :=
  combine (seq 0 (List.length l)) l.

Fixpoint findIndex (l : list PricePoint) (t : num) (k : nat) : option nat :=
  match l with
  | [] => None
  | d :: rest => if (timestamp d =? t)%num then Some k else findIndex rest t (S k)
  end.

(** The values [lo, lo + step, ...] below [hi] that a counting [for] loop
    goes through.  The loops of [render] run between finite bounds (they are
    sums of the viewport size and the padding); with a bound that is not
    finite the list is empty. *)
Definition loop_values (lo hi step : num) : list num :=
  match lo, hi, step with
  | Fin a, Fin b, Fin s =>
      if qneg (- s) then
        map (fun k => Fin (a + s * inject_Z (Z.of_nat k)))
            (seq 0 (Z.to_nat (Qceiling ((b - a) / s))))
      else []
  | _, _, _ => []
  end.

(** ** The layers of one frame (lines 501-692) *)

Section Frame.

Variable host : Host.
Variable p : Props.
Variable yAxis : AxisState.
Variable interaction : Interaction.

Let pad := padding p.

Definition draw_grid : list DrawCmd :=
  if showGrid p then
    let yStepHeight := (chartHeight p / Y_STEPS)%num in
    SetStrokeStyle (of_Z 1) (grid (colors p)) false
    :: flat_map (fun i =>
         let y := (top pad + yStepHeight * of_nat i)%num in
         [ MoveTo (left pad) y; LineTo (width p - right pad)%num y ])
       (seq 0 6)
    ++ [ Stroke ]
  else [].

Definition place_sprite (s : Sprite) (gradientTexture : option nat) : Sprite :=
  match gradientTexture with
  | Some t =>
      {| sprite_texture := Some t;
         sprite_position := (zero, top pad);
         sprite_size := Some (width p, chartHeight p) |}
  | None => s
  end.

Definition point_xy (ip : nat * PricePoint) : num * num :=
  (indexToX p (of_nat (fst ip)), priceToY p yAxis (price (snd ip))).

Definition line_to (ip : nat * PricePoint) : DrawCmd :=
  LineTo (fst (point_xy ip)) (snd (point_xy ip)).

Definition first_xy : num * num :=
  match data p with
  | d :: _ => point_xy (0%nat, d)
  | [] => (NaN, NaN)
  end.

Definition last_index : nat := List.length (data p) - 1.

Definition draw_mask : list DrawCmd :=
  let lastX := indexToX p (of_nat last_index) in
  MoveTo (fst first_xy) (snd first_xy)
  :: map line_to (indexed (data p))
  ++ [ LineTo lastX (height p - bottom pad)%num;
       LineTo (fst first_xy) (height p - bottom pad)%num;
       ClosePath;
       Fill (of_Z 0xffffff) None ].

Definition draw_marker (marker : ChartMarker) : list DrawCmd :=
  match findIndex (data p) (marker_timestamp marker) 0 with
  | None => []
  | Some index =>
      let x := indexToX p (of_nat index) in
      let y := priceToY p yAxis (marker_price marker) in
      match marker_type marker with
      | buy =>
          [ MoveTo x (y - of_Z 12)%num;
            LineTo (x - of_Z 8)%num (y + of_Z 4)%num;
            LineTo (x + of_Z 8)%num (y + of_Z 4)%num;
            ClosePath; Fill (of_Z MARKER_UP_COLOR) None ]
      | sell =>
          [ MoveTo x (y + of_Z 12)%num;
            LineTo (x - of_Z 8)%num (y - of_Z 4)%num;
            LineTo (x + of_Z 8)%num (y - of_Z 4)%num;
            ClosePath; Fill (of_Z MARKER_DOWN_COLOR) None ]
      end
  end.

Definition draw_chart : list DrawCmd :=
  SetStrokeStyle (of_Z 2) (line (colors p)) true
  :: MoveTo (fst first_xy) (snd first_xy)
  :: map line_to (tl (indexed (data p)))
  ++ Stroke
  :: match nth_error (data p) last_index with
     | Some lastPoint =>
         [ Circle (indexToX p (of_nat last_index))
                  (priceToY p yAxis (price lastPoint)) (of_Z 5);
           Fill (line (colors p)) None ]
     | None => []
     end
  ++ flat_map draw_marker (markers p).

Definition draw_labels : list TextNode :=
  if showAxisLabels p then
    let yStepHeight := (chartHeight p / Y_STEPS)%num in
    let priceStep := ((axis_max yAxis - axis_min yAxis) / Y_STEPS)%num in
    map (fun i =>
           let price := (axis_max yAxis - priceStep * of_nat i)%num in
           let y := (top pad + yStepHeight * of_nat i)%num in
           {| text := formatPrice host price;
              style := style_label;
              anchor := (of_Z 1, Fin 0.5);
              position := ((width p - of_Z 8)%num, y) |})
        (seq 0 6)
  else [].

(** The point under the crosshair (lines 598-600), if one is selected. *)
Definition selectedPoint : option PricePoint :=
  if (crosshairX interaction >=? zero)%num
     && (selectedIndex interaction >=? zero)%num
  then data_at (data p) (selectedIndex interaction)
  else None.

(** Lines 638-641: [mcap] stays [undefined] unless the guard passes. *)
Definition implied_mcap (selected : PricePoint) : option num :=
  match currentMcap p, currentPrice p with
  | Some m, Some cp =>
      if truthy m && truthy cp && (cp >? zero)%num
      then Some (m * (price selected / cp))%num
      else None
  | _, _ => None
  end.

(** The truthiness of [mcap] (lines 644 and 683). *)
Definition shown_mcap (selected : PricePoint) : option num :=
  match implied_mcap selected with
  | Some v => if truthy v then Some v else None
  | None => None
  end.

Definition tooltipWidth : num := of_Z 130.

Definition tooltipHeight (selected : PricePoint) : num :=
  match shown_mcap selected with
  | Some _ => of_Z 65
  | None => of_Z 50
  end.

Definition tooltipX (x : num) : num :=
  if (x >? width p - tooltipWidth - of_Z 30)%num
  then JS.max (of_Z 10) (x - tooltipWidth - of_Z 15)%num
  else JS.min (x + of_Z 15)%num (width p - tooltipWidth - of_Z 10)%num.

Definition tooltipY (selected : PricePoint) (y : num) : num :=
  clamp (y - tooltipHeight selected / of_Z 2)%num (of_Z 10)
        (height p - tooltipHeight selected - of_Z 10)%num.

Definition draw_overlay : list DrawCmd :=
  match selectedPoint with
  | None => []
  | Some selected =>
      let x := indexToX p (selectedIndex interaction) in
      let y := priceToY p yAxis (price selected) in
      let chartBottom := (height p - bottom pad)%num in
      let chartRight := (width p - right pad)%num in
      SetStrokeStyle (of_Z 1) (crosshair (colors p)) false
      :: flat_map (fun py =>
           [ MoveTo x py; LineTo x (JS.min (py + DASH_LENGTH)%num chartBottom) ])
         (loop_values (top pad) chartBottom (DASH_LENGTH + GAP_LENGTH)%num)
      ++ Stroke
      :: flat_map (fun px =>
           [ MoveTo px y; LineTo (JS.min (px + DASH_LENGTH)%num chartRight) y ])
         (loop_values (left pad) chartRight (DASH_LENGTH + GAP_LENGTH)%num)
      ++ Stroke
      :: (if isLongPress interaction then
            [ Circle x y (of_Z 8); Fill (line (colors p)) (Some (Fin 0.25));
              Circle x y (of_Z 4); Fill (line (colors p)) None ]
          else [])
      ++ [ RoundRect (tooltipX x) (tooltipY selected y) tooltipWidth
                     (tooltipHeight selected) (of_Z 6);
           Fill (of_Z 0xffffff) (Some (Fin 0.97));
           SetStrokeStyle (of_Z 1) (of_Z 0xe5e5e5) false;
           Stroke ]
  end.

Definition draw_tooltip : list TextNode :=
  match selectedPoint with
  | None => []
  | Some selected =>
      let x := indexToX p (selectedIndex interaction) in
      let y := priceToY p yAxis (price selected) in
      let tx := (tooltipX x + of_Z 8)%num in
      let ty := tooltipY selected y in
      [ {| text := formatTimestamp host (timestamp selected);
           style := style_timestamp;
           anchor := (zero, zero);
           position := (tx, (ty + of_Z 6)%num) |};
        {| text := "$" ++ formatPrice host (price selected);
           style := style_value;
           anchor := (zero, zero);
           position := (tx, (ty + of_Z 26)%num) |} ]
      ++ match shown_mcap selected with
         | Some mcap =>
             [ {| text := "MCAP: " ++ formatCurrencyCompact host mcap;
                  style := style_mcap;
                  anchor := (zero, zero);
                  position := (tx, (ty + of_Z 42)%num) |} ]
         | None => []
         end
  end.

(** [getTextStyles] is called by the labels and by the tooltip. *)
Definition uses_textStyles : bool :=
  showAxisLabels p || match selectedPoint with Some _ => true | None => false end.

End Frame.

(** ** Host effects: frames, timers, callbacks *)

Definition update_host (c : Chart) (anim : nat) (fr tm : list nat)
    (next shown : nat) (cap : list num) (sel : list (option PricePoint))
    (vib : list num) : Chart :=
  {| appRef := appRef c; graphicsRef := graphicsRef c;
     gradientCacheRef := gradientCacheRef c; textStylesRef := textStylesRef c;
     yAxisRef := yAxisRef c; interactionRef := interactionRef c;
     animationRef := anim; isPixiReady := isPixiReady c;
     gpu := gpu c; frames := fr; timeouts := tm;
     next_handle := next; presented := shown;
     capture := cap; selections := sel; vibrations := vib |}.

(** [app.render()]. *)
Definition present (c : Chart) : Chart :=
  update_host c (animationRef c) (frames c) (timeouts c) (next_handle c)
              (S (presented c)) (capture c) (selections c) (vibrations c).

(** [animationRef.current = requestAnimationFrame(render)]. *)
Definition requestAnimationFrame (c : Chart) : Chart :=
  update_host c (next_handle c) (next_handle c :: frames c) (timeouts c)
              (S (next_handle c)) (presented c) (capture c) (selections c)
              (vibrations c).

(** [setTimeout(...)]: the handle, and the chart with the timer pending. *)
Definition setTimeout (c : Chart) : nat * Chart :=
  (next_handle c,
   update_host c (animationRef c) (frames c) (next_handle c :: timeouts c)
               (S (next_handle c)) (presented c) (capture c) (selections c)
               (vibrations c)).

Definition remove_handle (h : nat) (l : list nat) : list nat :=
  filter (fun k => negb (Nat.eqb k h)) l.

Definition clearTimeout (h : nat) (c : Chart) : Chart :=
  update_host c (animationRef c) (frames c) (remove_handle h (timeouts c))
              (next_handle c) (presented c) (capture c) (selections c)
              (vibrations c).

Definition take_frame (h : nat) (c : Chart) : Chart :=
  update_host c (animationRef c) (remove_handle h (frames c)) (timeouts c)
              (next_handle c) (presented c) (capture c) (selections c)
              (vibrations c).

Definition setPointerCapture (pointerId : num) (c : Chart) : Chart :=
  update_host c (animationRef c) (frames c) (timeouts c) (next_handle c)
              (presented c) (pointerId :: capture c) (selections c)
              (vibrations c).

Definition releasePointerCapture (pointerId : num) (c : Chart) : Chart :=
  update_host c (animationRef c) (frames c) (timeouts c) (next_handle c)
              (presented c)
              (filter (fun k => negb (k =? pointerId)%num) (capture c))
              (selections c) (vibrations c).

(** [onPriceSelect?.(point)]. *)
Definition select (p : Props) (point : option PricePoint) (c : Chart) : Chart :=
  if onPriceSelect p then
    update_host c (animationRef c) (frames c) (timeouts c) (next_handle c)
                (presented c) (capture c) (point :: selections c)
                (vibrations c)
  else c.

Inductive HapticStyle : Type := light | medium | heavy.

(** Lines 65-70. *)
Definition triggerHaptic (host : Host) (style : HapticStyle) (c : Chart) : Chart :=
  if vibrate_supported host then
    let duration :=
      match style with
      | light => of_Z 10
      | medium => of_Z 20
      | heavy => of_Z 30
      end in
    update_host c (animationRef c) (frames c) (timeouts c) (next_handle c)
                (presented c) (capture c) (selections c)
                (duration :: vibrations c)
  else c.

Definition set_surface (app ready : bool) (c : Chart) : Chart :=
  {| appRef := app; graphicsRef := graphicsRef c;
     gradientCacheRef := gradientCacheRef c; textStylesRef := textStylesRef c;
     yAxisRef := yAxisRef c; interactionRef := interactionRef c;
     animationRef := animationRef c; isPixiReady := ready;
     gpu := gpu c; frames := frames c; timeouts := timeouts c;
     next_handle := next_handle c; presented := presented c;
     capture := capture c; selections := selections c;
     vibrations := vibrations c |}.

(** ** [render] (lines 446-717) *)

Definition clear_layers (l : Layers) : Layers :=
  {| gridLayer := []; gradientSprite := gradientSprite l; gradientMask := [];
     chartLayer := []; labelsContainer := []; overlayLayer := [];
     tooltipContainer := [] |}.

Definition zero_viewport (p : Props) : bool :=
  (width p =? zero)%num || (height p =? zero)%num.

(** The layers once a frame is drawn (lines 501-692). *)
Definition drawn_frame (host : Host) (p : Props) (yAxis : AxisState)
    (interaction : Interaction) (layers : Layers)
    (gradientTexture : option nat) : Layers :=
  {| gridLayer := draw_grid p;
     gradientSprite := place_sprite p (gradientSprite layers) gradientTexture;
     gradientMask := draw_mask p yAxis;
     chartLayer := draw_chart p yAxis;
     labelsContainer := draw_labels host p yAxis;
     overlayLayer := draw_overlay p yAxis interaction;
     tooltipContainer := draw_tooltip host p yAxis interaction |}.

Definition render (host : Host) (ctx : bool) (p : Props) (c : Chart) : Chart :=
  match appRef c, graphicsRef c with
  | true, Some layers =>
      if zero_viewport p then c
      else
        match data p with
        | [] => set_graphics (Some (clear_layers layers)) c
        | _ :: _ =>
            let interaction := interactionRef c in
            let yAxis := advance (yAxisRef c) in
            let c1 := set_yAxis yAxis c in
            let '(gradientTexture, c2) :=
              getGradientTexture ctx (width p) (chartHeight p) (lineColor p) c1 in
            let drawn :=
              drawn_frame host p yAxis interaction layers gradientTexture in
            let c3 :=
              set_textStyles (textStylesRef c2 || uses_textStyles p interaction)
                             (set_graphics (Some drawn) c2) in
            let c4 := present c3 in
            if needsAnimation yAxis then requestAnimationFrame c4 else c4
        end
  | _, _ => c
  end.

(** ** Lifecycle (lines 285-368, 719-742) *)

(** The end of [initPixi] when the component is still mounted
    (lines 313-345). *)
Definition initPixi (c : Chart) : Chart :=
  set_surface true true (set_graphics (Some new_layers) c).

(** The cleanup of the surface effect (lines 350-367). *)
Definition cleanup (c : Chart) : Chart :=
  let c1 := if appRef c then set_surface false false c else c in
  match texture (gradientCacheRef c1) with
  | Some t => set_gradient empty_cache (destroy t (gpu c1)) c1
  | None => c1
  end.

Definition clear_crosshair (i : Interaction) : Interaction :=
  {| isLongPress := isLongPress i;
     longPressTimer := longPressTimer i;
     crosshairX := of_Z (-1);
     crosshairY := of_Z (-1);
     selectedIndex := of_Z (-1) |}.

(** The effect run when the data or the viewport changes
    (lines 719-736). *)
Definition dataEffect (host : Host) (ctx : bool) (p : Props) (c : Chart) : Chart :=
  if negb (isPixiReady c) || zero_viewport p then c
  else
    let c1 := set_interaction (clear_crosshair (interactionRef c)) c in
    let b := calculateYBounds (data p) in
    let c2 :=
      set_yAxis {| axis_min := bounds_min b; axis_max := bounds_max b;
                   targetMin := bounds_min b; targetMax := bounds_max b |} c1 in
    render host ctx p c2.

(** Lines 738-742. *)
Definition renderEffect (host : Host) (ctx : bool) (p : Props) (c : Chart) : Chart :=
  if isPixiReady c then render host ctx p c else c.

(** ** Pointer handlers (lines 744-814) *)

Definition handlePointerDown (pointerId : num) (c : Chart) : Chart :=
  let '(h, c1) := setTimeout c in
  let i := interactionRef c1 in
  let c2 :=
    set_interaction
      {| isLongPress := isLongPress i; longPressTimer := Some h;
         crosshairX := crosshairX i; crosshairY := crosshairY i;
         selectedIndex := selectedIndex i |} c1 in
  setPointerCapture pointerId c2.

(** The callback given to [setTimeout] (lines 748-752), run by the host when
    timer [h] is still pending. *)
Definition longPress (host : Host) (ctx : bool) (p : Props) (h : nat)
    (c : Chart) : Chart :=
  if existsb (Nat.eqb h) (timeouts c) then
    let c1 := clearTimeout h c in
    let i := interactionRef c1 in
    let c2 :=
      set_interaction
        {| isLongPress := true; longPressTimer := longPressTimer i;
           crosshairX := crosshairX i; crosshairY := crosshairY i;
           selectedIndex := selectedIndex i |} c1 in
    render host ctx p (triggerHaptic host medium c2)
  else c.

(** The callback given to [requestAnimationFrame] (line 701). *)
Definition animationFrame (host : Host) (ctx : bool) (p : Props) (h : nat)
    (c : Chart) : Chart :=
  if existsb (Nat.eqb h) (frames c) then render host ctx p (take_frame h c)
  else c.

(** The index under the cursor (lines 770-775), [x] being the cursor's
    offset from the left edge of the container. *)
Definition nearestIndex (p : Props) (x : num) : num :=
  let rawIndex := JS.round ((x - left (padding p)) / pointSpacing p)%num in
  clamp rawIndex zero (of_Z (Z.of_nat (List.length (data p)) - 1)).

(** [rect] is the container's [left] and [top], when the container is
    mounted. *)
Definition handlePointerMove (host : Host) (ctx : bool) (p : Props)
    (clientX clientY : num) (rect : option (num * num)) (c : Chart) : Chart :=
  match rect with
  | None => c
  | Some (rect_left, rect_top) =>
      let x := (clientX - rect_left)%num in
      let y := (clientY - rect_top)%num in
      let index := nearestIndex p x in
      let i := interactionRef c in
      let c1 :=
        set_interaction
          {| isLongPress := isLongPress i; longPressTimer := longPressTimer i;
             crosshairX := x; crosshairY := y; selectedIndex := index |} c in
      let c2 :=
        match data_at (data p) index with
        | Some point => select p (Some point) c1
        | None => c1
        end in
      render host ctx p c2
  end.

Definition handlePointerUp (host : Host) (ctx : bool) (p : Props)
    (pointerId : num) (c : Chart) : Chart :=
  let c1 :=
    match longPressTimer (interactionRef c) with
    | Some h => clearTimeout h c
    | None => c
    end in
  let i := interactionRef c1 in
  let c2 :=
    set_interaction
      {| isLongPress := false; longPressTimer := None;
         crosshairX := crosshairX i; crosshairY := crosshairY i;
         selectedIndex := selectedIndex i |} c1 in
  render host ctx p (releasePointerCapture pointerId c2).

Definition handlePointerLeave (host : Host) (ctx : bool) (p : Props)
    (c : Chart) : Chart :=
  let c1 := set_interaction (clear_crosshair (interactionRef c)) c in
  render host ctx p (select p None c1).

(** What the host can deliver to a mounted chart.  The element registers
    handlers for pointer down, move, up and leave only (lines 832-835): a
    lost pointer capture and a cancelled pointer reach no handler. *)
Inductive Event : Type :=
| PointerDown (pointerId : num)
| PointerMove (clientX clientY : num) (rect : option (num * num))
| PointerUp (pointerId : num)
| PointerLeave
| LostPointerCapture (pointerId : num)
| PointerCancel (pointerId : num)
| TimerFires (h : nat)
| FrameFires (h : nat)
| DataChanged
| Unmount.

Definition step (host : Host) (ctx : bool) (p : Props) (e : Event)
    (c : Chart) : Chart :=
  match e with
  | PointerDown pointerId => handlePointerDown pointerId c
  | PointerMove clientX clientY rect =>
      handlePointerMove host ctx p clientX clientY rect c
  | PointerUp pointerId => handlePointerUp host ctx p pointerId c
  | PointerLeave => handlePointerLeave host ctx p c
  | LostPointerCapture _ => c
  | PointerCancel _ => c
  | TimerFires h => longPress host ctx p h c
  | FrameFires h => animationFrame host ctx p h c
  | DataChanged => dataEffect host ctx p c
  | Unmount => cleanup c
  end.

Definition run (host : Host) (ctx : bool) (p : Props) (es : list Event)
    (c : Chart) : Chart :=
  fold_left (fun acc e => step host ctx p e acc) es c.

(** ** The colour memo (lines 103-111)

    [hexColorCache] is a [Map] from the colour string to its number: a list
    of bindings, the latest first.  [hexToNumber] looks the string up and
    parses it only when it has no binding. *)

Definition ColorCache : Type := list (string * num).

Fixpoint cache_get (hex : string) (m : ColorCache) : option num :=
  match m with
  | [] => None
  | (k, v) :: rest => if String.eqb k hex then Some v else cache_get hex rest
  end.

Definition hexToNumber_memo (hex : string) (m : ColorCache) : num * ColorCache :=
  match cache_get hex m with
  | Some result => (result, m)
  | None =>
      let result := parseInt16 (remove_hash hex) in
      (result, (hex, result) :: m)
  end.

(** ** Vocabulary of the statements *)

(** A point whose price is a finite number. *)
Definition finite_price (d : PricePoint) : Prop := is_fin (price d) = true.

(** The cache is the only owner of a live texture: every texture named by
    the cache or by a [destroy] call has been made, and a texture that is
    alive is the cached one. *)
Definition single_slot (c : Chart) : Prop :=
  (forall t, In t (destroyed (gpu c)) ->
             (t < List.length (textures (gpu c)))%nat)
  /\ (forall t, texture (gradientCacheRef c) = Some t ->
                (t < List.length (textures (gpu c)))%nat)
  /\ (forall t, alive (gpu c) t -> texture (gradientCacheRef c) = Some t).

(** The live bounds are finite, ordered, and equal to their targets. *)
Definition axis_settled (a : AxisState) : Prop :=
  exists mn mx tmn tmx : Q,
    a = {| axis_min := Fin mn; axis_max := Fin mx;
           targetMin := Fin tmn; targetMax := Fin tmx |}
    /\ mn == tmn /\ mx == tmx /\ mn < mx.

(** Every binding of the memo holds what parsing its key gives. *)
Definition memo_sound (m : ColorCache) : Prop :=
  forall hex v, cache_get hex m = Some v -> v = hexToNumber hex.

(** A string of hexadecimal digits. *)
Fixpoint all_hex (s : string) : bool :=
  match s with
  | EmptyString => true
  | String c rest =>
      match hex_value c with Some _ => all_hex rest | None => false end
  end.

(** ** Sample inputs

    A host, the series of the scenario, and the props a caller gets when it
    passes only [data]. *)

Definition sample_host : Host :=
  {| NumberToString := fun _ => "1e+21";
     toLocaleDateString := fun _ => "Jan 1, 12:00 AM";
     vibrate_supported := true |}.

Definition point (t price : Q) : PricePoint :=
  {| timestamp := Fin t; price := Fin price |}.

Definition scenario_series : list PricePoint :=
  [ point 0 100; point 60 110; point 120 90 ].

Definition default_props (d : list PricePoint) (w h : Q) : Props :=
  {| data := d;
     markers := [];
     lineColor := "#09090b";
     gridColor := "#f4f4f5";
     crosshairColor := "#a1a1aa";
     showAxisLabels := true;
     showGrid := true;
     onPriceSelect := false;
     currentMcap := None;
     currentPrice := None;
     dimensions := {| dim_width := w; dim_height := h |} |}.

(** The same props with a market-cap reference pair. *)
Definition with_reference (mcap cp : option num) (p : Props) : Props :=
  {| data := data p;
     markers := markers p;
     lineColor := lineColor p;
     gridColor := gridColor p;
     crosshairColor := crosshairColor p;
     showAxisLabels := showAxisLabels p;
     showGrid := showGrid p;
     onPriceSelect := onPriceSelect p;
     currentMcap := mcap;
     currentPrice := cp;
     dimensions := dimensions p |}.

(** A chart whose surface has been created. *)
Definition mounted : Chart := initPixi initial.

(** The crosshair at offset [x] on the point of index [k]. *)
Definition crosshair_at (x : Q) (k : Z) (c : Chart) : Chart :=
  set_interaction
    {| isLongPress := isLongPress (interactionRef c);
       longPressTimer := longPressTimer (interactionRef c);
       crosshairX := Fin x;
       crosshairY := Fin 100;
       selectedIndex := of_Z k |} c.

(** * Properties *)

(** ** Comparisons on finite values *)

Unset Implicit Arguments.
Local Open Scope Q_scope.

Lemma lt_Fin (x y : Q) : JS.lt (Fin x) (Fin y) = true <-> x < y.
Proof.
  unfold JS.lt. rewrite Qlt_alt.
  destruct (x ?= y); split; congruence.
Qed.

Lemma lt_Fin_false (x y : Q) : JS.lt (Fin x) (Fin y) = false <-> y <= x.
Proof.
  unfold JS.lt. rewrite Qle_alt, <- Qgt_alt, Qlt_alt.
  destruct (x ?= y); split; congruence.
Qed.

Lemma eqb_Fin (x y : Q) : JS.eqb (Fin x) (Fin y) = true <-> x == y.
Proof. apply Qeq_bool_iff. Qed.

Lemma eqb_Fin_false (x y : Q) : JS.eqb (Fin x) (Fin y) = false <-> ~ x == y.
Proof.
  simpl. rewrite <- Qeq_bool_iff. destruct (Qeq_bool x y); split; congruence.
Qed.

Lemma ge_Fin (x y : Q) : JS.ge (Fin x) (Fin y) = true <-> y <= x.
Proof.
  unfold JS.ge, JS.le. rewrite orb_true_iff, lt_Fin, eqb_Fin. split.
  - intros [H | H]; lra.
  - intros H. destruct (Qlt_le_dec y x); [left | right]; lra.
Qed.

Lemma truthy_Fin (x : Q) : truthy (Fin x) = true <-> ~ x == 0.
Proof.
  simpl. rewrite negb_true_iff. rewrite <- Qeq_bool_iff.
  destruct (Qeq_bool x 0); split; congruence.
Qed.

Lemma qneg_true (q : Q) : qneg q = true <-> q < 0.
Proof.
  unfold qneg. rewrite Qlt_alt. destruct (q ?= 0); split; congruence.
Qed.

Lemma same_refl (a : num) : (a =~ a)%num.
Proof. destruct a; simpl; auto. reflexivity. Qed.

(** ** One smoothing step *)

Lemma lerp_Fin (a b t : Q) : lerp (Fin a) (Fin b) (Fin t) = Fin (a + (b + - a) * t).
Proof. reflexivity. Qed.

(** Splits on the sign of [q] and rewrites [Qabs q] accordingly. *)
Ltac split_abs q :=
  let H := fresh "Hsign" in
  destruct (Qlt_le_dec q 0) as [H | H];
  [ rewrite (Qabs_neg q) in * by lra | rewrite (Qabs_pos q) in * by lra ].

Lemma lerp_contracts (live target : Q) :
  ~ live == target ->
  Qabs ((live + (target + - live) * 0.15) - target) < Qabs (live - target).
Proof.
  intros Hne.
  split_abs (live + (target + - live) * 0.15 - target);
    split_abs (live - target); lra.
Qed.

Lemma lerp_fixed (live target : Q) :
  live == target -> live + (target + - live) * 0.15 == target.
Proof. intros H. lra. Qed.

(** ** What [render] leaves alone *)

Lemma getGradientTexture_frame ctx w h color c :
  exists g u, snd (getGradientTexture ctx w h color c) = set_gradient g u c
              /\ (fst (getGradientTexture ctx w h color c) = None
                  \/ fst (getGradientTexture ctx w h color c) = texture g).
Proof.
  unfold getGradientTexture.
  destruct (cache_hit (gradientCacheRef c) w h color) as [t|] eqn:Hhit.
  - exists (gradientCacheRef c), (gpu c). split.
    + destruct c; reflexivity.
    + right. simpl. unfold cache_hit in Hhit.
      destruct (texture (gradientCacheRef c)); [|discriminate].
      destruct (_ && _); congruence.
  - destruct ctx; simpl.
    + eexists _, _. split; [reflexivity | right; reflexivity].
    + eexists _, _. split; [reflexivity | left; reflexivity].
Qed.

Lemma render_frame host ctx p c layers :
  appRef c = true -> graphicsRef c = Some layers ->
  zero_viewport p = false -> data p <> [] ->
  let c' := render host ctx p c in
  yAxisRef c' = advance (yAxisRef c)
  /\ interactionRef c' = interactionRef c
  /\ timeouts c' = timeouts c
  /\ presented c' = S (presented c)
  /\ frames c' = (if needsAnimation (advance (yAxisRef c))
                  then next_handle c :: frames c else frames c)
  /\ (exists t, graphicsRef c' = Some (drawn_frame host p (advance (yAxisRef c))
                                       (interactionRef c) layers t)).
Proof.
  intros Happ Hg Hz Hd. unfold render. rewrite Happ, Hg, Hz.
  destruct (data p) as [|d rest] eqn:Hdata; [congruence|].
  destruct (getGradientTexture_frame ctx (width p) (chartHeight p) (lineColor p)
              (set_yAxis (advance (yAxisRef c)) c)) as (g & u & Hs & _).
  destruct (getGradientTexture ctx (width p) (chartHeight p) (lineColor p)
              (set_yAxis (advance (yAxisRef c)) c)) as [t c2].
  simpl in Hs. subst c2.
  destruct (needsAnimation (advance (yAxisRef c))); simpl;
    (repeat apply conj; try reflexivity; exists t; reflexivity).
Qed.

(** ** The axis animation *)

Lemma needsAnimation_Fin (mn mx tmn tmx : Q) :
  needsAnimation {| axis_min := Fin mn; axis_max := Fin mx;
                    targetMin := Fin tmn; targetMax := Fin tmx |} = true
  <-> 0.0001 < Qabs (mn - tmn) \/ 0.0001 < Qabs (mx - tmx).
Proof.
  unfold needsAnimation, JS.gt. simpl axis_min. simpl axis_max.
  simpl targetMin. simpl targetMax.
  rewrite orb_true_iff.
  change (JS.abs (Fin mn - Fin tmn)%num) with (Fin (Qabs (mn + - tmn))).
  change (JS.abs (Fin mx - Fin tmx)%num) with (Fin (Qabs (mx + - tmx))).
  rewrite !lt_Fin. reflexivity.
Qed.



(** ** The animation stops *)

Lemma advance_iter (mn mx tmn tmx : Q) (k : nat) :
  exists mnk mxk : Q,
    Nat.iter k advance {| axis_min := Fin mn; axis_max := Fin mx;
                          targetMin := Fin tmn; targetMax := Fin tmx |}
    = {| axis_min := Fin mnk; axis_max := Fin mxk;
         targetMin := Fin tmn; targetMax := Fin tmx |}
    /\ Qabs (mnk - tmn) * (17 + 3 * inject_Z (Z.of_nat k))
       <= 17 * Qabs (mn - tmn)
    /\ Qabs (mxk - tmx) * (17 + 3 * inject_Z (Z.of_nat k))
       <= 17 * Qabs (mx - tmx).
Proof.
  induction k as [|k (mnk & mxk & Hit & Hmn & Hmx)].
  - exists mn, mx. split; [reflexivity|].
    change (inject_Z (Z.of_nat 0)) with 0. split; lra.
  - exists (mnk + (tmn + - mnk) * 0.15), (mxk + (tmx + - mxk) * 0.15).
    split; [simpl; rewrite Hit; reflexivity|].
    assert (HK : inject_Z (Z.of_nat (S k)) == inject_Z (Z.of_nat k) + 1).
    { rewrite Nat2Z.inj_succ. unfold Z.succ. rewrite inject_Z_plus. reflexivity. }
    assert (HK0 : 0 <= inject_Z (Z.of_nat k)).
    { change 0 with (inject_Z 0). rewrite <- Zle_Qle. lia. }
    rewrite HK. set (K := inject_Z (Z.of_nat k)) in *.
    assert (Hstep : forall live target d0 : Q,
              Qabs (live - target) * (17 + 3 * K) <= 17 * d0 ->
              Qabs (live + (target + - live) * 0.15 - target)
                * (17 + 3 * (K + 1)) <= 17 * d0).
    { intros live target d0 H.
      assert (E : Qabs (live + (target + - live) * 0.15 - target)
                  == 0.85 * Qabs (live - target)).
      { split_abs (live + (target + - live) * 0.15 - target);
          split_abs (live - target); lra. }
      rewrite E. pose proof (Qabs_nonneg (live - target)) as Hnn.
      nra. }
    split; apply Hstep; assumption.
Qed.


(** ** The price axis *)

Lemma yRange_Fin (mn mx : Q) (tmn tmx : num) :
  yRange {| axis_min := Fin mn; axis_max := Fin mx;
            targetMin := tmn; targetMax := tmx |}
  = Fin (if Qeq_bool (mx + - mn) 0 then 1 else mx + - mn).
Proof.
  unfold yRange, or_else. simpl.
  destruct (Qeq_bool (mx + - mn) 0); reflexivity.
Qed.

Lemma div_Fin (x y : Q) : ~ y == 0 -> (Fin x / Fin y)%num = Fin (x / y).
Proof.
  intros Hy. unfold div, qsign.
  destruct (y ?= 0) eqn:E; try reflexivity.
  apply Qeq_alt in E. contradiction.
Qed.

Lemma yScale_Fin p a (H mn mx : Q) :
  chartHeight p = Fin H -> axis_min a = Fin mn -> axis_max a = Fin mx ->
  yScale p a = Fin (H / (if Qeq_bool (mx + - mn) 0 then 1 else mx + - mn))
  /\ ~ (if Qeq_bool (mx + - mn) 0 then 1 else mx + - mn) == 0.
Proof.
  intros Hh Hmn Hmx. unfold yScale. rewrite Hh.
  destruct a as [amin amax tmn tmx]; simpl in Hmn, Hmx; subst.
  rewrite yRange_Fin.
  assert (Hr : ~ (if Qeq_bool (mx + - mn) 0 then 1 else mx + - mn) == 0).
  { destruct (Qeq_bool (mx + - mn) 0) eqn:E.
    - intros H0. discriminate H0.
    - now apply Qeq_bool_neq. }
  split; [now apply div_Fin | exact Hr].
Qed.

Lemma priceToY_Fin p a (T H mn mx x : Q) :
  top (padding p) = Fin T -> chartHeight p = Fin H ->
  axis_min a = Fin mn -> axis_max a = Fin mx ->
  priceToY p a (Fin x)
  = Fin (T + H + - ((x + - mn)
         * (H / (if Qeq_bool (mx + - mn) 0 then 1 else mx + - mn)))).
Proof.
  intros Ht Hh Hmn Hmx. unfold priceToY.
  destruct (yScale_Fin p a H mn mx Hh Hmn Hmx) as [-> _].
  rewrite Ht, Hh, Hmn. reflexivity.
Qed.

Lemma priceToY_PInf p a (T H mn mx : Q) :
  top (padding p) = Fin T -> chartHeight p = Fin H ->
  axis_min a = Fin mn -> axis_max a = Fin mx -> 0 < H -> mn < mx ->
  priceToY p a PInf = NInf /\ priceToY p a NInf = PInf.
Proof.
  intros Ht Hh Hmn Hmx HH Hlt. unfold priceToY.
  destruct (yScale_Fin p a H mn mx Hh Hmn Hmx) as [-> _].
  rewrite Ht, Hh, Hmn.
  assert (Hs : qsign (H / (if Qeq_bool (mx + - mn) 0 then 1 else mx + - mn)) = Gt).
  { unfold qsign. apply Qgt_alt.
    destruct (Qeq_bool (mx + - mn) 0) eqn:E.
    - apply Qeq_bool_eq in E. lra.
    - apply Qlt_shift_div_l; lra. }
  simpl. rewrite Hs. simpl. split; reflexivity.
Qed.

Lemma priceToY_order p a (T H mn mx x1 x2 : Q) :
  top (padding p) = Fin T -> chartHeight p = Fin H ->
  axis_min a = Fin mn -> axis_max a = Fin mx -> 0 < H -> mn < mx ->
  x2 < x1 ->
  JS.lt (priceToY p a (Fin x1)) (priceToY p a (Fin x2)) = true.
Proof.
  intros Ht Hh Hmn Hmx HH Hlt Hx.
  rewrite !(priceToY_Fin p a T H mn mx) by assumption.
  apply lt_Fin.
  destruct (Qeq_bool (mx + - mn) 0) eqn:E.
  - apply Qeq_bool_eq in E. lra.
  - assert (Hpos : 0 < H / (mx + - mn)) by (apply Qlt_shift_div_l; lra).
    nra.
Qed.

Lemma dataEffect_axis host ctx p c layers :
  appRef c = true -> graphicsRef c = Some layers -> isPixiReady c = true ->
  zero_viewport p = false -> data p <> [] ->
  yAxisRef (dataEffect host ctx p c)
  = advance {| axis_min := bounds_min (calculateYBounds (data p));
               axis_max := bounds_max (calculateYBounds (data p));
               targetMin := bounds_min (calculateYBounds (data p));
               targetMax := bounds_max (calculateYBounds (data p)) |}.
Proof.
  intros Happ Hg Hr Hz Hd. unfold dataEffect. rewrite Hr, Hz. simpl negb. simpl orb.
  cbv iota.
  match goal with
  | |- yAxisRef (render _ _ _ ?c2) = _ =>
      destruct (render_frame host ctx p c2 layers) as (Hy & _); auto
  end.
Qed.




(** ** Axis bounds *)

(** Turns the boolean comparisons of finite values in the context into
    comparisons of rationals. *)
Ltac fin_cmp :=
  repeat match goal with
  | H : JS.lt (Fin _) (Fin _) = true |- _ => apply lt_Fin in H
  | H : JS.lt (Fin _) (Fin _) = false |- _ => apply lt_Fin_false in H
  | H : JS.eqb (Fin _) (Fin _) = true |- _ => apply eqb_Fin in H
  | H : JS.eqb (Fin _) (Fin _) = false |- _ => apply eqb_Fin_false in H
  end.

Lemma scan_finite rest :
  Forall finite_price rest ->
  forall a b : Q, a <= b ->
  exists a' b' : Q,
    scan rest (Fin a) (Fin b) = (Fin a', Fin b')
    /\ a' <= a /\ b <= b'
    /\ (a' = a \/ exists d, In d rest /\ price d = Fin a')
    /\ (b' = b \/ exists d, In d rest /\ price d = Fin b')
    /\ (forall d q, In d rest -> price d = Fin q -> a' <= q <= b').
Proof.
  induction 1 as [|d rest Hd Hrest IH]; intros a b Hab.
  - exists a, b. simpl. repeat split; auto; try lra; try (intros ? ? []).
  - unfold finite_price in Hd. destruct (price d) as [| | |q] eqn:Hq;
      try discriminate Hd.
    cbn [scan]. rewrite Hq. unfold JS.gt.
    assert (Hstep : exists a0 b0 : Q,
               (if JS.lt (Fin q) (Fin a) then Fin q else Fin a) = Fin a0
               /\ (if JS.lt (Fin b) (Fin q) then Fin q else Fin b) = Fin b0
               /\ a0 <= b0 /\ a0 <= a /\ b <= b0 /\ a0 <= q <= b0
               /\ (a0 = a \/ a0 = q) /\ (b0 = b \/ b0 = q)).
    { destruct (JS.lt (Fin q) (Fin a)) eqn:Ha;
        destruct (JS.lt (Fin b) (Fin q)) eqn:Hb; fin_cmp;
        eexists _, _; (split; [reflexivity|]); (split; [reflexivity|]);
        repeat split; auto; lra. }
    destruct Hstep as (a0 & b0 & -> & -> & H0 & Ha0 & Hb0 & Hq0 & Hca & Hcb).
    destruct (IH a0 b0 H0) as (a' & b' & Hs & Ha' & Hb' & Hina & Hinb & Hall).
    exists a', b'. split; [exact Hs|]. split; [lra|]. split; [lra|].
    split; [|split].
    + destruct Hina as [-> | (d' & Hin & Hp)].
      * destruct Hca as [-> | ->]; [now left|].
        right. exists d. split; [now left | exact Hq].
      * right. exists d'. split; [now right | exact Hp].
    + destruct Hinb as [-> | (d' & Hin & Hp)].
      * destruct Hcb as [-> | ->]; [now left|].
        right. exists d. split; [now left | exact Hq].
      * right. exists d'. split; [now right | exact Hp].
    + intros d' q' [<- | Hin] Hp; [|eauto].
      rewrite Hq in Hp. injection Hp as <-. lra.
Qed.

(** The loop of [calculateYBounds] finds the least and the greatest price
    of a series of finite prices. *)
Lemma scan_extrema data :
  data <> [] -> Forall finite_price data ->
  exists dmin dmax : Q,
    scan data PInf NInf = (Fin dmin, Fin dmax)
    /\ (exists d, In d data /\ price d = Fin dmin)
    /\ (exists d, In d data /\ price d = Fin dmax)
    /\ (forall d q, In d data -> price d = Fin q -> dmin <= q <= dmax).
Proof.
  intros Hne Hfin. destruct data as [|d rest]; [congruence|].
  inversion Hfin as [|? ? Hd Hrest]; subst.
  unfold finite_price in Hd. destruct (price d) as [| | |q] eqn:Hq;
    try discriminate Hd.
  destruct (scan_finite rest Hrest q q) as
    (a' & b' & Hs & Ha' & Hb' & Hina & Hinb & Hall); [lra|].
  exists a', b'. simpl. rewrite Hq. simpl. split; [exact Hs|].
  split; [|split].
  - destruct Hina as [-> | (d' & Hin & Hp)];
      [exists d; split; [now left | exact Hq]
      | exists d'; split; [now right | exact Hp]].
  - destruct Hinb as [-> | (d' & Hin & Hp)];
      [exists d; split; [now left | exact Hq]
      | exists d'; split; [now right | exact Hp]].
  - intros d' q' [<- | Hin] Hp; [|eauto].
    rewrite Hq in Hp. injection Hp as <-. lra.
Qed.

(** Splits a conjunction of guarded linear facts and closes each by [lra]. *)
Ltac arith_cases :=
  repeat match goal with
  | |- _ /\ _ => split
  | |- _ -> _ => intro
  end; lra.




(** ** The gradient cache *)

Lemma cache_hit_texture cache w h color t :
  cache_hit cache w h color = Some t -> texture cache = Some t.
Proof.
  unfold cache_hit. destruct (texture cache); [|discriminate].
  destruct (_ && _); congruence.
Qed.

(** A request that matches the cached key returns the cached texture and
    changes nothing. *)
Lemma getGradientTexture_hit ctx w h color c t :
  cache_hit (gradientCacheRef c) w h color = Some t ->
  getGradientTexture ctx w h color c = (Some t, c).
Proof. intros H. unfold getGradientTexture. now rewrite H. Qed.

(** C10.  When a request misses the cache and no 2d context can be had,
    the cached texture has been destroyed and yet the cache record is left
    as it was; any later request for the cached key is then answered with
    that destroyed texture, nothing being made anew. *)
Theorem failed_context_keeps_destroyed_texture c t w h color :
  texture (gradientCacheRef c) = Some t ->
  cache_hit (gradientCacheRef c) w h color = None ->
  let r := getGradientTexture false w h color c in
  fst r = None
  /\ gradientCacheRef (snd r) = gradientCacheRef c
  /\ In t (destroyed (gpu (snd r)))
  /\ ~ alive (gpu (snd r)) t
  /\ (forall ctx w0 h0 color0,
        cache_hit (gradientCacheRef c) w0 h0 color0 = Some t ->
        getGradientTexture ctx w0 h0 color0 (snd r) = (Some t, snd r)).
Proof.
  intros Ht Hmiss r. unfold r, getGradientTexture. rewrite Hmiss, Ht. simpl.
  split; [reflexivity|]. split; [reflexivity|]. split; [now left|].
  split.
  - intros [_ Hnot]. apply Hnot. now left.
  - intros ctx w0 h0 color0 Hhit. now rewrite Hhit.
Qed.

Lemma failed_context_keeps_destroyed_texture_witness :
  let c1 := snd (getGradientTexture true (Fin 400) (Fin 250) "#09090b" initial) in
  let c2 := snd (getGradientTexture false (Fin 400) (Fin 250) "#ef4444" c1) in
  (texture (gradientCacheRef c1) = Some 0%nat
   /\ cache_hit (gradientCacheRef c1) (Fin 400) (Fin 250) "#ef4444" = None)
  /\ fst (getGradientTexture false (Fin 400) (Fin 250) "#ef4444" c1) = None
  /\ In 0%nat (destroyed (gpu c2))
  /\ getGradientTexture true (Fin 400) (Fin 250) "#09090b" c2 = (Some 0%nat, c2).
Proof.
  intros c1 c2.
  destruct (failed_context_keeps_destroyed_texture c1 0%nat
              (Fin 400) (Fin 250) "#ef4444" eq_refl eq_refl)
    as (Hnone & _ & Hin & _ & Hagain).
  split; [split; reflexivity|]. split; [exact Hnone|]. split; [exact Hin|].
  apply Hagain. reflexivity.
Defined.

(** C4 at its failing input.  A texture is cached for the colour [#09090b];
    a request for [#ef4444] finds no 2d context; the next request changes
    the colour back to [#09090b].  It is answered from the cache with
    texture [0], which the second request destroyed: no texture is made for
    the changed key, and none is alive afterwards. *)
Theorem getGradientTexture_stale_after_failure :
  let r1 := getGradientTexture true (Fin 400) (Fin 250) "#09090b" initial in
  let r2 := getGradientTexture false (Fin 400) (Fin 250) "#ef4444" (snd r1) in
  let r3 := getGradientTexture true (Fin 400) (Fin 250) "#09090b" (snd r2) in
  fst r1 = Some 0%nat
  /\ fst r2 = None
  /\ fst r3 = Some 0%nat
  /\ destroyed (gpu (snd r3)) = [0%nat]
  /\ List.length (textures (gpu (snd r3))) = 1%nat
  /\ ~ alive (gpu (snd r3)) 0.
Proof.
  repeat split. intros [_ Hnot]. apply Hnot. now left.
Qed.

(** ** The guards of [render] *)

(** C6 (amended).  [render] changes nothing when the surface is missing or
    a viewport dimension is zero.  With the surface there, a non-zero
    viewport and an empty series, it empties the six drawing layers, keeps
    the gradient sprite and leaves the rest of the chart as it was: no axis
    step, no frame presented, none requested. *)
Theorem render_guards host ctx p c :
  (appRef c = false \/ graphicsRef c = None \/ zero_viewport p = true ->
   render host ctx p c = c)
  /\ (forall layers,
        appRef c = true -> graphicsRef c = Some layers ->
        zero_viewport p = false -> data p = [] ->
        render host ctx p c = set_graphics (Some (clear_layers layers)) c).
Proof.
  split.
  - intros [H | [H | H]]; unfold render.
    + now rewrite H.
    + rewrite H. now destruct (appRef c).
    + rewrite H. destruct (appRef c), (graphicsRef c); reflexivity.
  - intros layers Happ Hg Hz Hd. unfold render. now rewrite Happ, Hg, Hz, Hd.
Qed.

Lemma render_guards_witness :
  let p := default_props [] 400 300 in
  (appRef initial = false
   /\ appRef mounted = true /\ graphicsRef mounted = Some new_layers
   /\ zero_viewport p = false /\ data p = [])
  /\ render sample_host true p initial = initial
  /\ render sample_host true p mounted
     = set_graphics (Some (clear_layers new_layers)) mounted.
Proof.
  intros p.
  destruct (render_guards sample_host true p initial) as [Hnoop _].
  destruct (render_guards sample_host true p mounted) as [_ Hclear].
  split; [repeat split|]. split.
  - apply Hnoop. left. reflexivity.
  - apply Hclear; reflexivity.
Defined.

(** C6, as stated, fails for an empty series: the layers are cleared before
    the series is looked at, so what was drawn on them is lost. *)
Lemma render_empty_data_counterexample :
  let p := default_props [] 400 300 in
  let stale :=
    {| gridLayer := []; gradientSprite := new_sprite; gradientMask := [];
       chartLayer := [MoveTo (Fin 10) (Fin 20); LineTo (Fin 30) (Fin 40); Stroke];
       labelsContainer := []; overlayLayer := []; tooltipContainer := [] |} in
  let c := set_graphics (Some stale) mounted in
  data p = []
  /\ graphicsRef (render sample_host true p c) = Some new_layers
  /\ render sample_host true p c <> c.
Proof.
  intros p stale c. split; [reflexivity|]. split; [reflexivity|].
  intros H. apply (f_equal graphicsRef) in H. discriminate H.
Qed.

(** ** The tooltip *)

Lemma gt_zero_truthy (a : num) : (a >? zero)%num = true -> truthy a = true.
Proof.
  unfold JS.gt, zero. destruct a as [| | |q]; simpl; try congruence.
  intros H. change (JS.lt (Fin 0) (Fin q) = true) in H. fin_cmp.
  apply negb_true_iff. destruct (Qeq_bool q 0) eqn:E; [|reflexivity].
  apply Qeq_bool_eq in E. lra.
Qed.

Lemma shown_mcap_some p selected m cp :
  currentMcap p = Some m -> currentPrice p = Some cp ->
  truthy m = true -> (cp >? zero)%num = true ->
  truthy (m * (price selected / cp))%num = true ->
  shown_mcap p selected = Some (m * (price selected / cp))%num.
Proof.
  intros Hm Hcp Htm Hpos Hv. unfold shown_mcap, implied_mcap.
  rewrite Hm, Hcp, Htm, (gt_zero_truthy cp Hpos), Hpos. simpl.
  now rewrite Hv.
Qed.

Lemma shown_mcap_none p selected :
  currentMcap p = None \/ currentPrice p = None
  \/ (exists m, currentMcap p = Some m /\ truthy m = false)
  \/ (exists cp, currentPrice p = Some cp /\ (cp >? zero)%num = false) ->
  shown_mcap p selected = None.
Proof.
  unfold shown_mcap, implied_mcap.
  intros [H | [H | [(m & H & Hm) | (cp & H & Hcp)]]]; rewrite H.
  - reflexivity.
  - now destruct (currentMcap p).
  - rewrite Hm. now destruct (currentPrice p).
  - destruct (currentMcap p); [|reflexivity].
    rewrite Hcp. now rewrite andb_false_r.
Qed.

(** C7 (amended).  With a point under the crosshair, the tooltip of the
    frame holds the time line and the price line; it holds the market-cap
    line as well, showing [currentMcap * (selectedPrice / currentPrice)],
    when [currentMcap] is supplied and is neither [0] nor [NaN],
    [currentPrice] is supplied and positive, and that product is itself
    neither [0] nor [NaN]; it holds no market-cap line when either
    reference is missing, [currentMcap] is [0] or [NaN], or [currentPrice]
    is not positive. *)
Theorem tooltip_market_cap host ctx p c layers selected :
  appRef c = true -> graphicsRef c = Some layers ->
  zero_viewport p = false -> data p <> [] ->
  selectedPoint p (interactionRef c) = Some selected ->
  exists drawn,
    graphicsRef (render host ctx p c) = Some drawn
    /\ (forall m cp,
          currentMcap p = Some m -> currentPrice p = Some cp ->
          truthy m = true -> (cp >? zero)%num = true ->
          truthy (m * (price selected / cp))%num = true ->
          map text (tooltipContainer drawn)
          = [ formatTimestamp host (timestamp selected);
              ("$" ++ formatPrice host (price selected))%string;
              ("MCAP: " ++ formatCurrencyCompact host
                             (m * (price selected / cp))%num)%string ])
    /\ (currentMcap p = None \/ currentPrice p = None
        \/ (exists m, currentMcap p = Some m /\ truthy m = false)
        \/ (exists cp, currentPrice p = Some cp /\ (cp >? zero)%num = false) ->
        map text (tooltipContainer drawn)
        = [ formatTimestamp host (timestamp selected);
            ("$" ++ formatPrice host (price selected))%string ]).
Proof.
  intros Happ Hg Hz Hd Hsel.
  destruct (render_frame host ctx p c layers Happ Hg Hz Hd)
    as (_ & _ & _ & _ & _ & (t & Hdrawn)).
  eexists. split; [exact Hdrawn|].
  unfold drawn_frame. cbn [tooltipContainer]. unfold draw_tooltip.
  rewrite Hsel. split.
  - intros m cp Hm Hcp Htm Hpos Hv.
    now rewrite (shown_mcap_some p selected m cp Hm Hcp Htm Hpos Hv).
  - intros Hnone. now rewrite (shown_mcap_none p selected Hnone).
Qed.

Lemma tooltip_market_cap_witness :
  let p := with_reference (Some (Fin 1000000)) (Some (Fin 100))
             (default_props scenario_series 400 300) in
  let c := crosshair_at 185 1 mounted in
  (appRef c = true /\ graphicsRef c = Some new_layers
   /\ zero_viewport p = false /\ data p <> []
   /\ selectedPoint p (interactionRef c) = Some (point 60 110))
  /\ exists drawn,
       graphicsRef (render sample_host true p c) = Some drawn
       /\ map text (tooltipContainer drawn)
          = [ "Jan 1, 12:00 AM"; "$110.00"; "MCAP: $1.10M" ]%string.
Proof.
  intros p c.
  assert (Hd : data p <> []) by discriminate.
  split; [repeat split; exact Hd|].
  destruct (tooltip_market_cap sample_host true p c new_layers (point 60 110)
              eq_refl eq_refl eq_refl Hd eq_refl)
    as (drawn & Hdrawn & Hwith & _).
  exists drawn. split; [exact Hdrawn|].
  apply (Hwith (Fin 1000000) (Fin 100)); reflexivity.
Defined.

(** C7, as stated, fails when both references are supplied and the current
    price is [0]: the guard [currentPrice > 0] keeps the market-cap line out
    of the tooltip. *)
Lemma tooltip_market_cap_counterexample :
  let p := with_reference (Some (Fin 1000000)) (Some (Fin 0))
             (default_props scenario_series 400 300) in
  let c := crosshair_at 185 1 mounted in
  currentMcap p = Some (Fin 1000000) /\ currentPrice p = Some (Fin 0)
  /\ selectedPoint p (interactionRef c) = Some (point 60 110)
  /\ match graphicsRef (render sample_host true p c) with
     | Some drawn =>
         map text (tooltipContainer drawn)
         = [ "Jan 1, 12:00 AM"; "$110.00" ]%string
     | None => False
     end.
Proof.
  intros p c. repeat split.
Qed.

(** ** The index under the cursor *)

Lemma as_index_Z (z : Z) :
  (0 <= z)%Z -> as_index (Fin (inject_Z z)) = Some (Z.to_nat z).
Proof.
  intros Hz. unfold as_index. rewrite Qfloor_Z.
  rewrite Qeq_bool_refl. simpl.
  destruct (0 <=? z)%Z eqn:E; [reflexivity|]. apply Z.leb_gt in E. lia.
Qed.

Lemma lt_inject_Z (x y : Z) :
  JS.lt (Fin (inject_Z x)) (Fin (inject_Z y)) = (x <? y)%Z.
Proof.
  destruct (x <? y)%Z eqn:E.
  - apply lt_Fin. rewrite <- Zlt_Qlt. now apply Z.ltb_lt.
  - apply lt_Fin_false. rewrite <- Zle_Qle. now apply Z.ltb_ge.
Qed.

(** [clamp] brings every number but [NaN] to an integer of [0 .. hi], when it
    starts from an integer or an infinity. *)
Lemma clamp_integer (raw : num) (hi : Z) :
  (0 <= hi)%Z ->
  (raw = PInf \/ raw = NInf \/ exists z, raw = Fin (inject_Z z)) ->
  exists z, clamp raw zero (Fin (inject_Z hi)) = Fin (inject_Z z)
            /\ (0 <= z <= hi)%Z.
Proof.
  intros Hhi [-> | [-> | (z & ->)]]; unfold clamp, zero.
  - exists hi. split; [reflexivity | lia].
  - exists 0%Z. split; [|lia].
    change (JS.max NInf (Fin 0)) with (Fin (inject_Z 0)).
    unfold JS.min. rewrite lt_inject_Z.
    destruct (hi <? 0)%Z eqn:E; [apply Z.ltb_lt in E; lia | reflexivity].
  - change (Fin 0) with (Fin (inject_Z 0)).
    unfold JS.max. rewrite lt_inject_Z.
    destruct (z <? 0)%Z eqn:E1; unfold JS.min; rewrite lt_inject_Z.
    + destruct (hi <? 0)%Z eqn:E2; [apply Z.ltb_lt in E2; lia|].
      exists 0%Z. split; [reflexivity | lia].
    + apply Z.ltb_ge in E1.
      destruct (hi <? z)%Z eqn:E2.
      * exists hi. split; [reflexivity | lia].
      * apply Z.ltb_ge in E2. exists z. split; [reflexivity | lia].
Qed.

Lemma round_shape (a : num) :
  a <> NaN ->
  JS.round a = PInf \/ JS.round a = NInf
  \/ exists z, JS.round a = Fin (inject_Z z).
Proof.
  destruct a as [| | |q]; intros H; simpl; eauto. congruence.
Qed.

(** Whenever the quotient of line 774 is a number, the index stored by
    [handlePointerMove] names a point of a non-empty series. *)
Lemma nearestIndex_in_range p x :
  data p <> [] ->
  ((x - left (padding p)) / pointSpacing p)%num <> NaN ->
  exists k, as_index (nearestIndex p x) = Some k
            /\ (k < List.length (data p))%nat.
Proof.
  intros Hd Hq. unfold nearestIndex.
  assert (Hn : (0 <= Z.of_nat (List.length (data p)) - 1)%Z).
  { destruct (data p); [congruence | simpl List.length; lia]. }
  destruct (clamp_integer (JS.round ((x - left (padding p)) / pointSpacing p))
              (Z.of_nat (List.length (data p)) - 1) Hn (round_shape _ Hq))
    as (z & Hz & Hrange).
  unfold of_Z. rewrite Hz. exists (Z.to_nat z).
  split; [apply as_index_Z; lia | lia].
Qed.

(** C8 at its failing input.  With a single point the spacing is [0]; a
    cursor exactly at the left padding makes the quotient [0 / 0], and
    [NaN] goes through [Math.round] and [clamp] unchanged: the stored index
    is [NaN], which names no point.  One pixel further the index is [0]. *)
Theorem nearestIndex_single_point_nan :
  let p := default_props [point 0 100] 400 300 in
  let c := handlePointerMove sample_host true p (Fin 10) (Fin 50)
             (Some (Fin 0, Fin 0)) mounted in
  pointSpacing p = Fin 0
  /\ nearestIndex p (Fin 10) = NaN
  /\ selectedIndex (interactionRef c) = NaN
  /\ data_at (data p) (selectedIndex (interactionRef c)) = None
  /\ selectedPoint p (interactionRef c) = None
  /\ nearestIndex p (Fin 11) = Fin 0.
Proof.
  repeat split.
Qed.

(** ** The long-press timer *)

Lemma getGradientTexture_keeps ctx w h color c :
  timeouts (snd (getGradientTexture ctx w h color c)) = timeouts c
  /\ interactionRef (snd (getGradientTexture ctx w h color c)) = interactionRef c.
Proof.
  destruct (getGradientTexture_frame ctx w h color c) as (g & u & -> & _).
  split; reflexivity.
Qed.

Lemma render_keeps host ctx p c :
  timeouts (render host ctx p c) = timeouts c
  /\ interactionRef (render host ctx p c) = interactionRef c.
Proof.
  unfold render.
  destruct (appRef c); [|split; reflexivity].
  destruct (graphicsRef c) as [layers|]; [|split; reflexivity].
  destruct (zero_viewport p); [split; reflexivity|].
  destruct (data p) as [|d rest]; [split; reflexivity|].
  destruct (getGradientTexture_keeps ctx (width p) (chartHeight p) (lineColor p)
              (set_yAxis (advance (yAxisRef c)) c)) as [Ht Hi].
  destruct (getGradientTexture ctx (width p) (chartHeight p) (lineColor p)
              (set_yAxis (advance (yAxisRef c)) c)) as [t c2].
  simpl in Ht, Hi.
  destruct (needsAnimation (advance (yAxisRef c))); simpl; split; assumption.
Qed.

Lemma remove_handle_absent h l : ~ In h (remove_handle h l).
Proof.
  unfold remove_handle. rewrite filter_In. intros [_ H].
  now rewrite Nat.eqb_refl in H.
Qed.

Lemma remove_handle_only h l :
  (forall k, In k l -> k = h) -> remove_handle h l = [].
Proof.
  induction l as [|k l IH]; intros Hall; [reflexivity|].
  simpl. rewrite (Hall k (or_introl eq_refl)), Nat.eqb_refl. simpl.
  apply IH. intros k' Hk'. apply Hall. now right.
Qed.

Lemma handlePointerUp_effect host ctx p pointerId c :
  timeouts (handlePointerUp host ctx p pointerId c)
  = match longPressTimer (interactionRef c) with
    | Some h => remove_handle h (timeouts c)
    | None => timeouts c
    end
  /\ interactionRef (handlePointerUp host ctx p pointerId c)
     = {| isLongPress := false; longPressTimer := None;
          crosshairX := crosshairX (interactionRef c);
          crosshairY := crosshairY (interactionRef c);
          selectedIndex := selectedIndex (interactionRef c) |}.
Proof.
  unfold handlePointerUp.
  match goal with
  | |- context [render host ctx p ?x] =>
      destruct (render_keeps host ctx p x) as [Ht Hi]
  end.
  cbv zeta. rewrite Ht, Hi.
  destruct (longPressTimer (interactionRef c)); split; reflexivity.
Qed.

(** C9 (amended).  Pointer-up clears the timer recorded in the interaction
    state, which is the one started by the latest pointer-down, and the
    long-press flag; when that timer was the only one pending, none is left
    and no timer callback can set the flag any more.  A lost pointer capture
    reaches no handler and the cleanup of the component does not touch the
    timers: both leave the pending timers as they are. *)
Theorem pointer_up_cancels_timer host ctx p pointerId c :
  let c' := handlePointerUp host ctx p pointerId c in
  longPressTimer (interactionRef c') = None
  /\ isLongPress (interactionRef c') = false
  /\ (forall h, longPressTimer (interactionRef c) = Some h ->
                ~ In h (timeouts c'))
  /\ (forall h, longPressTimer (interactionRef c) = Some h ->
                (forall k, In k (timeouts c) -> k = h) ->
                timeouts c' = []
                /\ forall k, longPress host ctx p k c' = c')
  /\ timeouts (step host ctx p (LostPointerCapture pointerId) c) = timeouts c
  /\ timeouts (step host ctx p Unmount c) = timeouts c.
Proof.
  intros c'. unfold c'.
  destruct (handlePointerUp_effect host ctx p pointerId c) as [Ht Hi].
  rewrite Hi. split; [reflexivity|]. split; [reflexivity|].
  split; [|split; [|split]].
  - intros h Hh. rewrite Ht, Hh. apply remove_handle_absent.
  - intros h Hh Hall.
    assert (Hnil : timeouts (handlePointerUp host ctx p pointerId c) = [])
      by (rewrite Ht, Hh; now apply remove_handle_only).
    split; [exact Hnil|].
    intros k. unfold longPress. now rewrite Hnil.
  - reflexivity.
  - simpl. unfold cleanup.
    destruct (appRef c);
      destruct (texture (gradientCacheRef _)); reflexivity.
Qed.

Lemma pointer_up_cancels_timer_witness :
  let p := default_props scenario_series 400 300 in
  let c := handlePointerDown (Fin 1) mounted in
  (longPressTimer (interactionRef c) = Some 1%nat
   /\ forall k, In k (timeouts c) -> k = 1%nat)
  /\ timeouts (handlePointerUp sample_host true p (Fin 1) c) = [].
Proof.
  intros p c.
  assert (Hall : forall k, In k (timeouts c) -> k = 1%nat).
  { intros k [<- | []]. reflexivity. }
  split; [split; [reflexivity | exact Hall]|].
  destruct (pointer_up_cancels_timer sample_host true p (Fin 1) c)
    as (_ & _ & _ & Honly & _).
  apply (Honly 1%nat eq_refl Hall).
Defined.

(** C9, as stated, fails for teardown and for the loss of the pointer
    capture: after a pointer-down, the cleanup of the component, or a lost
    capture, leaves the timer pending, and when it fires it sets the
    long-press flag. *)
Lemma long_press_timer_counterexample :
  let p := default_props scenario_series 400 300 in
  let run := run sample_host true p in
  timeouts (run [PointerDown (Fin 1); Unmount] mounted) = [1%nat]
  /\ isLongPress (interactionRef
        (run [PointerDown (Fin 1); Unmount; TimerFires 1] mounted)) = true
  /\ timeouts (run [PointerDown (Fin 1); LostPointerCapture (Fin 1)] mounted)
     = [1%nat]
  /\ isLongPress (interactionRef
        (run [PointerDown (Fin 1); LostPointerCapture (Fin 1); TimerFires 1]
             mounted)) = true.
Proof.
  repeat split.
Qed.

(** ** Strings of digits *)

Local Open Scope string_scope.

Lemma length_append (a b : string) :
  String.length (a ++ b) = (String.length a + String.length b)%nat.
Proof. induction a as [|c a IH]; simpl; [reflexivity | now rewrite IH]. Qed.

Lemma length_zeros (k : nat) : String.length (zeros k) = k.
Proof. induction k as [|k IH]; simpl; [reflexivity | now rewrite IH]. Qed.

Lemma length_substring (s : string) (n m : nat) :
  (n + m <= String.length s)%nat -> String.length (substring n m s) = m.
Proof.
  revert n m. induction s as [|c s IH]; intros n m H; simpl in H.
  - assert (n = 0%nat) by lia. assert (m = 0%nat) by lia. subst. reflexivity.
  - destruct n as [|n]; simpl.
    + destruct m as [|m]; [reflexivity|]. simpl. rewrite (IH 0%nat m); lia.
    + apply IH. lia.
Qed.

Lemma length_substring_le (s : string) (n m : nat) :
  (String.length (substring n m s) <= String.length s - n)%nat.
Proof.
  revert n m. induction s as [|c s IH]; intros n m.
  - destruct n, m; simpl; lia.
  - destruct n as [|n]; simpl.
    + destruct m as [|m]; simpl; [lia|].
      specialize (IH 0%nat m). simpl in IH. lia.
    + apply IH.
Qed.

Lemma all_digits_append (a b : string) :
  all_digits (a ++ b) = all_digits a && all_digits b.
Proof.
  induction a as [|c a IH]; simpl; [reflexivity|].
  now rewrite IH, andb_assoc.
Qed.

Lemma all_digits_zeros (k : nat) : all_digits (zeros k) = true.
Proof. induction k as [|k IH]; simpl; [reflexivity | exact IH]. Qed.

Lemma all_digits_substring (s : string) (n m : nat) :
  all_digits s = true -> all_digits (substring n m s) = true.
Proof.
  revert n m. induction s as [|c s IH]; intros n m H.
  - destruct n, m; reflexivity.
  - simpl in H. apply andb_true_iff in H. destruct H as [Hc Hs].
    destruct n as [|n]; simpl.
    + destruct m as [|m]; [reflexivity|]. simpl. now rewrite Hc, IH.
    + now apply IH.
Qed.

Lemma all_digits_uint (d : Decimal.uint) :
  all_digits (NilEmpty.string_of_uint d) = true.
Proof. induction d; simpl; auto. Qed.

Lemma all_digits_digits (n : Z) : all_digits (digits n) = true.
Proof.
  unfold digits, NilZero.string_of_uint.
  destruct (N.to_uint (Z.to_N n)) eqn:E; try reflexivity;
    rewrite <- E; apply all_digits_uint.
Qed.

Lemma digits_nonempty (n : Z) : (1 <= String.length (digits n))%nat.
Proof.
  unfold digits, NilZero.string_of_uint.
  destruct (N.to_uint (Z.to_N n)); simpl; lia.
Qed.

(** ** The match of [/^0\.(0+)(\d{4})/] *)

Lemma four_digits_fits (k : nat) (s : string) :
  (k + 4 <= String.length s)%nat -> all_digits s = true ->
  four_digits k s = Some (substring k 4 s).
Proof.
  intros Hlen Hd. unfold four_digits.
  now rewrite (length_substring s k 4 Hlen), (all_digits_substring s k 4 Hd).
Qed.

Lemma four_digits_short (k : nat) (s : string) :
  (String.length s < k + 4)%nat -> four_digits k s = None.
Proof.
  intros Hlen. unfold four_digits.
  pose proof (length_substring_le s k 4) as Hle.
  destruct (Nat.eqb (String.length (substring k 4 s)) 4) eqn:E;
    [apply Nat.eqb_eq in E; lia | reflexivity].
Qed.

(** The greedy group gives zeros back until four characters are left to
    read: of a run of [z] zeros it keeps [min z (length s - 4)]. *)
Lemma backtrack_cap (s : string) (z : nat) :
  all_digits s = true -> (5 <= String.length s)%nat -> (0 < z)%nat ->
  backtrack z s
  = Some (Nat.min z (String.length s - 4),
          substring (Nat.min z (String.length s - 4)) 4 s).
Proof.
  intros Hd Hlen. induction z as [|z IH]; intros Hz; [lia|].
  cbn [backtrack].
  destruct (Nat.le_gt_cases (S z + 4) (String.length s)) as [Hfit | Hover].
  - rewrite (four_digits_fits (S z) s Hfit Hd).
    now rewrite Nat.min_l by lia.
  - rewrite (four_digits_short (S z) s) by lia.
    rewrite IH by lia.
    now rewrite !(Nat.min_r _ (String.length s - 4)) by lia.
Qed.

Lemma backtrack_none (s : string) : backtrack 0 s = None.
Proof. reflexivity. Qed.

(** ** The shape of [toFixed] *)

Lemma fixed_digits_shape (n : Z) (f : nat) :
  f <> 0%nat ->
  exists A B : string,
    fixed_digits n f = A ++ "." ++ B
    /\ all_digits A = true /\ all_digits B = true
    /\ String.length B = f /\ (1 <= String.length A)%nat.
Proof.
  intros Hf. unfold fixed_digits. destruct f as [|f]; [congruence|].
  set (m := digits n).
  set (m' := if Nat.leb (String.length m) (S f)
             then zeros (S (S f) - String.length m) ++ m else m).
  assert (Hd : all_digits m' = true).
  { unfold m', m. destruct (Nat.leb _ _).
    - now rewrite all_digits_append, all_digits_zeros, all_digits_digits.
    - apply all_digits_digits. }
  assert (Hlen : (S (S f) <= String.length m')%nat).
  { unfold m'. destruct (Nat.leb (String.length m) (S f)) eqn:E.
    - apply Nat.leb_le in E. rewrite length_append, length_zeros.
      pose proof (digits_nonempty n). fold m in H. lia.
    - apply Nat.leb_gt in E. lia. }
  exists (substring 0 (String.length m' - S f) m'),
         (substring (String.length m' - S f) (S f) m').
  split; [reflexivity|].
  split; [now apply all_digits_substring|].
  split; [now apply all_digits_substring|].
  split; [apply length_substring; lia|].
  rewrite length_substring; lia.
Qed.

Lemma split_at_point (A B rest : string) :
  A ++ "." ++ B = String "0" (String "." rest) ->
  all_digits A = true -> (1 <= String.length A)%nat -> rest = B.
Proof.
  intros Heq Hd Hlen. destruct A as [|a A]; [simpl in Hlen; lia|].
  simpl in Heq. injection Heq as _ Heq.
  destruct A as [|a' A].
  - simpl in Heq. now injection Heq.
  - simpl in Heq. injection Heq as Ha' _. subst a'.
    simpl in Hd. rewrite andb_false_r in Hd. discriminate.
Qed.

Lemma ge_one_false (q : Q) : (Fin q >=? of_Z 1)%num = false -> q < 1.
Proof.
  unfold JS.ge, JS.le, of_Z. intros H. apply orb_false_iff in H.
  destruct H as [H1 H2]. fin_cmp. change (inject_Z 1) with 1 in *.
  destruct (Qlt_le_dec q 1) as [Hlt | Hge]; [exact Hlt|].
  exfalso. apply H2. lra.
Qed.

(** Below [1], a [toFixed(20)] rendering that starts with ["0."] goes on
    with exactly twenty digits. *)
Lemma toFixed_fraction host (q : Q) (rest : string) :
  q < 1 ->
  toFixed host (Fin q) 20 = String "0" (String "." rest) ->
  String.length rest = 20%nat /\ all_digits rest = true.
Proof.
  intros Hq. unfold toFixed, sign_prefix.
  destruct (qneg q) eqn:Hneg.
  - destruct (Qle_bool _ _); simpl; discriminate.
  - assert (Hpos : 0 <= q).
    { destruct (Qlt_le_dec q 0) as [Hlt | Hge]; [|exact Hge].
      apply qneg_true in Hlt. congruence. }
    destruct (Qle_bool (inject_Z (pow10 21)) (Qabs q)) eqn:Hbig.
    + apply Qle_bool_iff in Hbig. rewrite Qabs_pos in Hbig by exact Hpos.
      assert (Hone : 1 <= inject_Z (pow10 21)) by (vm_compute; discriminate).
      exfalso. lra.
    + intros Heq.
      change (fixed_digits (nearest (Qabs q * inject_Z (pow10 20))) 20
              = String "0" (String "." rest)) in Heq.
      destruct (fixed_digits_shape (nearest (Qabs q * inject_Z (pow10 20))) 20)
        as (A & B & HAB & HA & HB & HlenB & HlenA); [discriminate|].
      rewrite HAB in Heq.
      rewrite (split_at_point A B rest Heq HA HlenA). now split.
Qed.

Lemma match_leading_zeros_prefix (rest : string) :
  match_leading_zeros (String "0" (String "." rest))
  = backtrack (zero_run rest) rest.
Proof. reflexivity. Qed.

Lemma match_leading_zeros_some (str : string) r :
  match_leading_zeros str = Some r ->
  exists rest, str = String "0" (String "." rest).
Proof.
  intros E. destruct str as [|c1 [|c2 rest]].
  - discriminate E.
  - destruct c1 as [[] [] [] [] [] [] [] []]; discriminate E.
  - destruct c1 as [[] [] [] [] [] [] [] []]; try discriminate E.
    destruct c2 as [[] [] [] [] [] [] [] []]; try discriminate E.
    now exists rest.
Qed.

(** ** The tiers of [formatPrice] *)

Lemma ge_of_Z (a : num) (k : Z) :
  (a >=? of_Z k)%num = true
  <-> a = PInf \/ exists q, a = Fin q /\ inject_Z k <= q.
Proof.
  unfold of_Z. destruct a as [| | |q].
  - split; [discriminate | intros [H | (q & H & _)]; discriminate].
  - split; [discriminate | intros [H | (q & H & _)]; discriminate].
  - split; [now left | reflexivity].
  - rewrite ge_Fin. split.
    + intros H. right. now exists q.
    + intros [H | (q' & H & Hq)]; [discriminate|]. now injection H as ->.
Qed.

Lemma ge_of_Z_mono (a : num) (j k : Z) :
  (j <= k)%Z -> (a >=? of_Z k)%num = true -> (a >=? of_Z j)%num = true.
Proof.
  intros Hjk. rewrite !ge_of_Z. intros [H | (q & H & Hq)]; [now left|].
  right. exists q. split; [exact H|].
  rewrite Zle_Qle in Hjk. lra.
Qed.

Lemma ge_of_Z_false_mono (a : num) (j k : Z) :
  (j <= k)%Z -> (a >=? of_Z j)%num = false -> (a >=? of_Z k)%num = false.
Proof.
  intros Hjk Hj. destruct (a >=? of_Z k)%num eqn:Hk; [|reflexivity].
  now rewrite (ge_of_Z_mono a j k Hjk Hk) in Hj.
Qed.

Lemma ge_positive_not_zero (a : num) (k : Z) :
  (0 < k)%Z -> (a >=? of_Z k)%num = true -> (a =? zero)%num = false.
Proof.
  intros Hk. rewrite ge_of_Z. intros [-> | (q & -> & Hq)]; [reflexivity|].
  apply eqb_Fin_false. rewrite Zlt_Qlt in Hk. change (inject_Z 0) with 0 in Hk.
  lra.
Qed.

(** C5 (amended).  [formatPrice] gives ["0"] for [0]; the integer with
    thousands separators from [10000] up; two decimals from [100] up; four
    decimals from [1] up.  Below [1] it reads the rendering with twenty
    decimals: when this starts with ["0.0"], the result is
    ["0.0(k)dddd"] where [k] is the number of zeros after the point, at
    most [16] so that four digits are left, and [dddd] the four digits after
    those [k] zeros; otherwise the result has four significant digits.  So
    [0.0000012345] gives ["0.0(5)1234"], [150.5] gives ["150.50"] and [0]
    gives ["0"]. *)
Theorem formatPrice_tiers host price :
  ((price =? zero)%num = true -> formatPrice host price = "0")
  /\ ((price >=? of_Z 10000)%num = true ->
      formatPrice host price = toLocaleString0 price)
  /\ ((price >=? of_Z 100)%num = true ->
      (price >=? of_Z 10000)%num = false ->
      formatPrice host price = toFixed host price 2)
  /\ ((price >=? of_Z 1)%num = true ->
      (price >=? of_Z 100)%num = false ->
      formatPrice host price = toFixed host price 4)
  /\ ((price =? zero)%num = false -> (price >=? of_Z 1)%num = false ->
      (forall rest,
         toFixed host price 20 = String "0" (String "." rest) ->
         (0 < zero_run rest)%nat ->
         String.length rest = 20%nat
         /\ formatPrice host price
            = "0.0(" ++ nat_to_string (Nat.min (zero_run rest) 16) ++ ")"
              ++ substring (Nat.min (zero_run rest) 16) 4 rest)
      /\ ((forall rest,
             toFixed host price 20 = String "0" (String "." rest) ->
             zero_run rest = 0%nat) ->
          formatPrice host price = toPrecision price 4))
  /\ formatPrice host (Fin 0.0000012345) = "0.0(5)1234"
  /\ formatPrice host (Fin 150.5) = "150.50"
  /\ formatPrice host (Fin 0) = "0".
Proof.
  split; [|split; [|split; [|split; [|split]]]].
  - intros H. unfold formatPrice. now rewrite H.
  - intros H. unfold formatPrice.
    now rewrite (ge_positive_not_zero price 10000 eq_refl H), H.
  - intros H100 H10000. unfold formatPrice.
    now rewrite (ge_positive_not_zero price 100 eq_refl H100), H10000, H100.
  - intros H1 H100. unfold formatPrice.
    rewrite (ge_positive_not_zero price 1 eq_refl H1).
    rewrite (ge_of_Z_false_mono price 100 10000) by (lia || exact H100).
    now rewrite H100, H1.
  - intros H0 H1. unfold formatPrice. rewrite H0.
    rewrite (ge_of_Z_false_mono price 1 10000) by (lia || exact H1).
    rewrite (ge_of_Z_false_mono price 1 100) by (lia || exact H1).
    rewrite H1. split.
    + intros rest Hstr Hrun. rewrite Hstr, match_leading_zeros_prefix.
      destruct price as [| | |q]; try discriminate Hstr.
      destruct (toFixed_fraction host q rest (ge_one_false q H1) Hstr)
        as [Hlen Hd].
      split; [exact Hlen|].
      rewrite (backtrack_cap rest (zero_run rest) Hd) by lia.
      rewrite Hlen. reflexivity.
    + intros Hnone.
      destruct (match_leading_zeros (toFixed host price 20)) as [[n d]|] eqn:E;
        [|reflexivity].
      exfalso.
      destruct (match_leading_zeros_some _ _ E) as (rest & Hstr).
      rewrite Hstr, match_leading_zeros_prefix, (Hnone rest Hstr) in E.
      discriminate E.
  - repeat split.
Qed.

Lemma formatPrice_tiers_witness :
  ((Fin 0.05 =? zero)%num = false /\ (Fin 0.05 >=? of_Z 1)%num = false
   /\ toFixed sample_host (Fin 0.05) 20 = "0.05000000000000000000"
   /\ (0 < zero_run "05000000000000000000")%nat)
  /\ formatPrice sample_host (Fin 0.05) = "0.0(1)5000".
Proof.
  assert (Hrun : (0 < zero_run "05000000000000000000")%nat) by apply le_n.
  split; [repeat split; exact Hrun|].
  destruct (formatPrice_tiers sample_host (Fin 0.05))
    as (_ & _ & _ & _ & Hbelow & _).
  destruct (Hbelow eq_refl eq_refl) as [Hcompact _].
  destruct (Hcompact "05000000000000000000" eq_refl Hrun) as [_ Hf].
  exact Hf.
Defined.

(** C5, as stated, fails below [1e-16]: the rendering of [1.2345e-18] with
    twenty decimals has seventeen zeros after the point and only three
    digits after them, so the greedy group gives one zero back; the
    notation shows [16], not the count of leading zeros, and ["0123"], not
    the digits that follow them. *)
Lemma formatPrice_count_counterexample :
  toFixed sample_host (Fin 1.2345e-18) 20 = "0.00000000000000000123"
  /\ zero_run "00000000000000000123" = 17%nat
  /\ formatPrice sample_host (Fin 1.2345e-18) = "0.0(16)0123".
Proof.
  repeat split.
Qed.

(** ** The single slot *)

Lemma single_slot_initial : single_slot initial.
Proof.
  repeat split; simpl; try contradiction; try discriminate.
  intros t [H _]. simpl in H. lia.
Qed.

Lemma single_slot_getGradientTexture ctx w h color c :
  single_slot c -> single_slot (snd (getGradientTexture ctx w h color c)).
Proof.
  intros Hslot. unfold getGradientTexture.
  destruct (cache_hit (gradientCacheRef c) w h color) as [t|];
    [exact Hslot|].
  destruct Hslot as (Hd & Hc & Ha).
  destruct (texture (gradientCacheRef c)) as [t0|] eqn:Ht; destruct ctx;
    unfold single_slot, alive; simpl; rewrite ?List.length_app, ?Ht; simpl.
  - split; [|split].
    + intros t [<- | Hin]; [specialize (Hc t0 eq_refl) | specialize (Hd t Hin)];
        lia.
    + intros t Heq. injection Heq as <-. lia.
    + intros t [Hlt Hnot].
      destruct (Nat.eq_dec t (List.length (textures (gpu c)))) as [-> | Hne];
        [reflexivity|].
      exfalso. apply Hnot.
      assert (Halive : alive (gpu c) t).
      { split; [lia|]. intros Hin. apply Hnot. now right. }
      specialize (Ha t Halive). injection Ha as ->. now left.
  - split; [|split].
    + intros t [<- | Hin]; [now apply Hc | now apply Hd].
    + exact Hc.
    + intros t [Hlt Hnot]. apply Ha. split; [exact Hlt|].
      intros Hin. apply Hnot. now right.
  - split; [|split].
    + intros t Hin. specialize (Hd t Hin). lia.
    + intros t Heq. injection Heq as <-. lia.
    + intros t [Hlt Hnot].
      destruct (Nat.eq_dec t (List.length (textures (gpu c)))) as [-> | Hne];
        [reflexivity|].
      exfalso.
      assert (Halive : alive (gpu c) t) by (split; [lia | exact Hnot]).
      specialize (Ha t Halive). discriminate Ha.
  - split; [exact Hd | split; [exact Hc | exact Ha]].
Qed.

Lemma single_slot_cleanup c : single_slot c -> single_slot (cleanup c).
Proof.
  intros (Hd & Hc & Ha). unfold cleanup.
  destruct (appRef c); simpl;
    (destruct (texture (gradientCacheRef c)) as [t0|] eqn:Ht;
     unfold single_slot, alive; simpl; rewrite ?Ht;
     [|split; [exact Hd | split; [exact Hc | exact Ha]]]);
    (split; [|split];
     [ intros t [<- | Hin]; [now apply Hc | now apply Hd]
     | discriminate
     | intros t [Hlt Hnot]; exfalso; apply Hnot;
       assert (Halive : alive (gpu c) t)
         by (split; [exact Hlt | intros Hin; apply Hnot; now right]);
       specialize (Ha t Halive); injection Ha as ->; now left ]).
Qed.

Lemma single_slot_render host ctx p c :
  single_slot c -> single_slot (render host ctx p c).
Proof.
  intros H. unfold render.
  destruct (appRef c); [|exact H].
  destruct (graphicsRef c) as [layers|]; [|exact H].
  destruct (zero_viewport p); [exact H|].
  destruct (data p) as [|d rest]; [exact H|].
  pose proof (single_slot_getGradientTexture ctx (width p) (chartHeight p)
                (lineColor p) (set_yAxis (advance (yAxisRef c)) c) H) as H2.
  destruct (getGradientTexture ctx (width p) (chartHeight p) (lineColor p)
              (set_yAxis (advance (yAxisRef c)) c)) as [t c2].
  destruct (needsAnimation (advance (yAxisRef c))); exact H2.
Qed.

Lemma single_slot_step host ctx p e c :
  single_slot c -> single_slot (step host ctx p e c).
Proof.
  intros H. destruct e; simpl.
  - exact H.
  - unfold handlePointerMove. destruct rect as [[rl rt]|]; [|exact H].
    apply single_slot_render.
    destruct (data_at _ _); [|exact H].
    unfold select. destruct (onPriceSelect p); exact H.
  - unfold handlePointerUp. apply single_slot_render.
    destruct (longPressTimer (interactionRef c)); exact H.
  - unfold handlePointerLeave. apply single_slot_render.
    unfold select. destruct (onPriceSelect p); exact H.
  - exact H.
  - exact H.
  - unfold longPress. destruct (existsb _ _); [|exact H].
    apply single_slot_render.
    unfold triggerHaptic. destruct (vibrate_supported host); exact H.
  - unfold animationFrame. destruct (existsb _ _); [|exact H].
    now apply single_slot_render.
  - unfold dataEffect. destruct (_ || _); [exact H|].
    now apply single_slot_render.
  - now apply single_slot_cleanup.
Qed.


(** * Further properties *)

Local Open Scope Q_scope.

(** ** Horizontal mapping *)

Lemma padding_fin p :
  exists T R B : Q,
    padding p = {| top := Fin T; right := Fin R; bottom := Fin B;
                   left := Fin 10 |}
    /\ 0 < T /\ 0 < R /\ 0 < B.
Proof.
  unfold padding. destruct (showAxisLabels p);
    eexists _, _, _; (split; [reflexivity|]); repeat split.
Qed.

Lemma pointSpacing_fin p (W R : Q) :
  (1 < List.length (data p))%nat ->
  width p = Fin W -> right (padding p) = Fin R ->
  left (padding p) = Fin 10 ->
  pointSpacing p
  = Fin ((W + - 10 + - R) / inject_Z (Z.of_nat (List.length (data p) - 1)))
  /\ 0 < inject_Z (Z.of_nat (List.length (data p) - 1)).
Proof.
  intros Hn HW HR HL.
  assert (Hk : 0 < inject_Z (Z.of_nat (List.length (data p) - 1))).
  { change 0 with (inject_Z 0). rewrite <- Zlt_Qlt. lia. }
  split; [|exact Hk].
  unfold pointSpacing, chartWidth.
  apply Nat.ltb_lt in Hn. rewrite Hn, HW, HR, HL.
  unfold of_nat, of_Z.
  change (Fin W - Fin 10 - Fin R)%num with (Fin (W + - 10 + - R)).
  apply div_Fin. lra.
Qed.



(** X2.  With two points or more and a chart area of positive width, the
    horizontal position grows strictly with the index: the points are drawn
    from left to right in the order of the series. *)
Theorem indexToX_increasing p (i j : Q) :
  (1 < List.length (data p))%nat ->
  JS.lt zero (chartWidth p) = true ->
  i < j ->
  JS.lt (indexToX p (Fin i)) (indexToX p (Fin j)) = true.
Proof.
  intros Hn Hw Hij.
  destruct (padding_fin p) as (T & R & B & Hpad & _).
  assert (HL : left (padding p) = Fin 10) by now rewrite Hpad.
  assert (HR : right (padding p) = Fin R) by now rewrite Hpad.
  destruct (pointSpacing_fin p (dim_width (dimensions p)) R Hn eq_refl HR HL)
    as [Hs Hk].
  unfold chartWidth, width in Hw. rewrite HL, HR in Hw.
  change (Fin (dim_width (dimensions p)) - Fin 10 - Fin R)%num
    with (Fin (dim_width (dimensions p) + - 10 + - R)) in Hw.
  apply lt_Fin in Hw.
  unfold indexToX. rewrite Hs, HL.
  apply lt_Fin.
  assert (Hpos : 0 < (dim_width (dimensions p) + - 10 + - R)
                     / inject_Z (Z.of_nat (List.length (data p) - 1)))
    by (apply Qlt_shift_div_l; lra).
  nra.
Qed.

Lemma indexToX_increasing_witness :
  let p := default_props scenario_series 400 300 in
  ((1 < List.length (data p))%nat /\ JS.lt zero (chartWidth p) = true
   /\ 0 < 1)
  /\ JS.lt (indexToX p (Fin 0)) (indexToX p (Fin 1)) = true.
Proof.
  intros p. assert (Hn : (1 < List.length (data p))%nat) by (simpl; lia).
  split; [split; [exact Hn | split; reflexivity]|].
  apply (indexToX_increasing p 0 1 Hn); reflexivity.
Defined.

(** ** Vertical mapping *)



(** The bounds computed from the extrema found by the loop. *)
Lemma bounds_of_extrema data (dmin dmax : Q) :
  data <> [] -> scan data PInf NInf = (Fin dmin, Fin dmax) -> dmin <= dmax ->
  exists lo hi : Q,
    calculateYBounds data = {| bounds_min := Fin lo; bounds_max := Fin hi |}
    /\ lo < hi
    /\ ((1 # 2 ^ 52) <= dmax - dmin ->
        lo == dmin - 0.1 * (dmax - dmin) /\ hi == dmax + 0.1 * (dmax - dmin))
    /\ (dmax - dmin < (1 # 2 ^ 52) -> 0 < dmin ->
        lo == dmin - 0.1 * dmin /\ hi == dmin + 0.1 * dmin)
    /\ (dmax - dmin < (1 # 2 ^ 52) -> dmin <= 0 ->
        lo == dmin - 0.0000001 /\ hi == dmin + 0.0000001).
Proof.
  intros Hne Hs Hle.
  unfold calculateYBounds. destruct data as [|d0 rest]; [congruence|].
  rewrite Hs. unfold Number_EPSILON.
  change (JS.abs (Fin dmax - Fin dmin)%num) with (Fin (Qabs (dmax + - dmin))).
  assert (Heps : 0 < (1 # 2 ^ 52)) by reflexivity.
  set (eps := 1 # 2 ^ 52) in *.
  assert (Habs : Qabs (dmax + - dmin) == dmax - dmin)
    by (rewrite Qabs_pos; lra).
  destruct ((Fin dmin =? Fin dmax)%num
            || (Fin (Qabs (dmax + - dmin)) <? Fin eps)%num) eqn:Hc.
  - assert (Hnear : dmax - dmin < eps).
    { apply orb_true_iff in Hc. destruct Hc as [Hc | Hc]; fin_cmp; lra. }
    unfold JS.gt, zero.
    destruct (JS.lt (Fin 0) (Fin dmin)) eqn:Hpos; fin_cmp.
    + exists (dmin + - (dmin * 0.1)), (dmin + dmin * 0.1).
      split; [reflexivity | arith_cases].
    + exists (dmin + - 0.0000001), (dmin + 0.0000001).
      split; [reflexivity | arith_cases].
  - apply orb_false_iff in Hc. destruct Hc as [Hc1 Hc2]. fin_cmp.
    exists (dmin + - ((dmax + - dmin) * 0.1)), (dmax + (dmax + - dmin) * 0.1).
    split; [reflexivity | arith_cases].
Qed.



Lemma priceToY_inside p a (T H mn mx q : Q) :
  top (padding p) = Fin T -> chartHeight p = Fin H ->
  axis_min a = Fin mn -> axis_max a = Fin mx ->
  0 < H -> mn < q < mx ->
  JS.lt (Fin T) (priceToY p a (Fin q)) = true
  /\ JS.lt (priceToY p a (Fin q)) (Fin (T + H)) = true.
Proof.
  intros Ht Hh Hmn Hmx HH Hq.
  rewrite (priceToY_Fin p a T H mn mx) by assumption.
  destruct (Qeq_bool (mx + - mn) 0) eqn:E.
  - apply Qeq_bool_eq in E. exfalso. lra.
  - assert (Hk : 0 < H / (mx + - mn)) by (apply Qlt_shift_div_l; lra).
    assert (Hkr : H / (mx + - mn) * (mx + - mn) == H) by (field; lra).
    set (k := H / (mx + - mn)) in *.
    split; apply lt_Fin; nra.
Qed.



(** ** The axis in every reachable state *)

Lemma advance_settled a :
  axis_settled a ->
  axis_settled (advance a) /\ needsAnimation (advance a) = false.
Proof.
  intros (mn & mx & tmn & tmx & -> & Hmn & Hmx & Hlt).
  unfold advance. simpl axis_min. simpl axis_max. simpl targetMin.
  simpl targetMax. unfold Y_SMOOTHING. rewrite !lerp_Fin. split.
  - exists (mn + (tmn + - mn) * 0.15), (mx + (tmx + - mx) * 0.15), tmn, tmx.
    split; [reflexivity|]. repeat split; lra.
  - destruct (needsAnimation _) eqn:E; [|reflexivity].
    exfalso. apply needsAnimation_Fin in E.
    assert (E1 : Qabs (mn + (tmn + - mn) * 0.15 - tmn) == 0).
    { split_abs (mn + (tmn + - mn) * 0.15 - tmn); lra. }
    assert (E2 : Qabs (mx + (tmx + - mx) * 0.15 - tmx) == 0).
    { split_abs (mx + (tmx + - mx) * 0.15 - tmx); lra. }
    destruct E as [E | E]; lra.
Qed.

Lemma render_settled host ctx p c :
  axis_settled (yAxisRef c) -> frames c = [] ->
  axis_settled (yAxisRef (render host ctx p c))
  /\ frames (render host ctx p c) = [].
Proof.
  intros Ha Hf.
  destruct (appRef c) eqn:Happ;
    [|unfold render; rewrite Happ; now split].
  destruct (graphicsRef c) as [layers|] eqn:Hg;
    [|unfold render; rewrite Happ, Hg; now split].
  destruct (zero_viewport p) eqn:Hz;
    [unfold render; rewrite Happ, Hg, Hz; now split|].
  destruct (data p) as [|d rest] eqn:Hd;
    [unfold render; rewrite Happ, Hg, Hz, Hd; now split|].
  assert (Hne : data p <> []) by (rewrite Hd; discriminate).
  destruct (render_frame host ctx p c layers Happ Hg Hz Hne)
    as (Hy & _ & _ & _ & Hfr & _).
  destruct (advance_settled (yAxisRef c) Ha) as [Hs Hn].
  rewrite Hy, Hfr, Hn. now split.
Qed.

Lemma bounds_settled data :
  Forall finite_price data ->
  axis_settled
    {| axis_min := bounds_min (calculateYBounds data);
       axis_max := bounds_max (calculateYBounds data);
       targetMin := bounds_min (calculateYBounds data);
       targetMax := bounds_max (calculateYBounds data) |}.
Proof.
  intros Hfin. destruct data as [|d rest] eqn:Hd.
  - exists 0, 1, 0, 1. repeat split; reflexivity.
  - rewrite <- Hd in *. assert (Hne : data <> []) by (rewrite Hd; discriminate).
    destruct (scan_extrema data Hne Hfin)
      as (dmin & dmax & Hs & (dm & Hinm & Hpm) & _ & Hall).
    assert (Hle : dmin <= dmax) by (specialize (Hall dm dmin Hinm Hpm); lra).
    destruct (bounds_of_extrema data dmin dmax Hne Hs Hle)
      as (lo & hi & Hb & Hlt & _).
    rewrite Hb. exists lo, hi, lo, hi.
    split; [reflexivity|]. repeat split; try reflexivity. exact Hlt.
Qed.

Lemma step_settled host ctx p e c :
  Forall finite_price (data p) ->
  axis_settled (yAxisRef c) -> frames c = [] ->
  axis_settled (yAxisRef (step host ctx p e c))
  /\ frames (step host ctx p e c) = [].
Proof.
  intros Hfin Ha Hf. destruct e; simpl.
  - split; assumption.
  - unfold handlePointerMove. destruct rect as [[rl rt]|]; [|now split].
    apply render_settled;
      (destruct (data_at _ _); [unfold select; destruct (onPriceSelect p)|]);
      assumption.
  - unfold handlePointerUp. apply render_settled;
      destruct (longPressTimer (interactionRef c)); assumption.
  - unfold handlePointerLeave. apply render_settled;
      unfold select; destruct (onPriceSelect p); assumption.
  - split; assumption.
  - split; assumption.
  - unfold longPress. destruct (existsb _ _); [|now split].
    apply render_settled;
      unfold triggerHaptic; destruct (vibrate_supported host); assumption.
  - unfold animationFrame. rewrite Hf. simpl. now split.
  - unfold dataEffect. destruct (_ || _); [now split|].
    apply render_settled; [|exact Hf].
    apply bounds_settled. exact Hfin.
  - unfold cleanup.
    destruct (appRef c); destruct (texture (gradientCacheRef _));
      split; assumption.
Qed.

(** Whatever is delivered to a mounted chart, with whatever props of finite
    prices, the axis stays settled and no frame callback is pending. *)
Lemma settled_reachable host (es : list (bool * Props * Event)) :
  Forall (fun x => Forall finite_price (data (snd (fst x)))) es ->
  let c := fold_left
             (fun c x => step host (fst (fst x)) (snd (fst x)) (snd x) c)
             es mounted in
  axis_settled (yAxisRef c) /\ frames c = [].
Proof.
  intros Hes.
  assert (Hm : axis_settled (yAxisRef mounted) /\ frames mounted = []).
  { split; [|reflexivity]. exists 0, 1, 0, 1. repeat split; reflexivity. }
  revert Hm. generalize mounted.
  induction Hes as [|[[ctx p] e] es Hp Hes IH]; intros c [Ha Hf];
    [now split|].
  simpl. apply IH. now apply step_settled.
Qed.





(** ** [clamp] and the tooltip box *)

Lemma clamp_range_aux (value : num) (lo hi : Q) :
  lo <= hi -> value <> NaN ->
  exists r : Q, clamp value (Fin lo) (Fin hi) = Fin r /\ lo <= r <= hi.
Proof.
  intros Hle Hnan. unfold clamp.
  destruct value as [| | |v]; [congruence| | |].
  - change (JS.max NInf (Fin lo)) with (Fin lo). unfold JS.min.
    destruct (JS.lt (Fin hi) (Fin lo)) eqn:E; fin_cmp;
      eexists; (split; [reflexivity|]); lra.
  - change (JS.max PInf (Fin lo)) with PInf.
    exists hi. split; [reflexivity | lra].
  - unfold JS.max.
    destruct (JS.lt (Fin v) (Fin lo)) eqn:E1; unfold JS.min.
    + destruct (JS.lt (Fin hi) (Fin lo)) eqn:E2; fin_cmp;
        eexists; (split; [reflexivity|]); lra.
    + destruct (JS.lt (Fin hi) (Fin v)) eqn:E2; fin_cmp;
        eexists; (split; [reflexivity|]); lra.
Qed.

(** X8.  Between finite bounds [lo <= hi], [clamp] returns a finite number
    of [lo .. hi] for every value but [NaN], returns a value that already
    lies in the range unchanged, and returns [NaN] for [NaN]. *)
Theorem clamp_within (value : num) (lo hi : Q) :
  lo <= hi ->
  (value <> NaN ->
   exists r : Q, clamp value (Fin lo) (Fin hi) = Fin r /\ lo <= r <= hi)
  /\ (forall v : Q, value = Fin v -> lo <= v <= hi ->
                    clamp value (Fin lo) (Fin hi) = Fin v)
  /\ clamp NaN (Fin lo) (Fin hi) = NaN.
Proof.
  intros Hle. split; [|split; [|reflexivity]].
  - intros Hnan. now apply clamp_range_aux.
  - intros v -> Hv. unfold clamp, JS.max.
    destruct (JS.lt (Fin v) (Fin lo)) eqn:E1; fin_cmp; [exfalso; lra|].
    unfold JS.min.
    destruct (JS.lt (Fin hi) (Fin v)) eqn:E2; fin_cmp;
      [exfalso; lra | reflexivity].
Qed.

Lemma clamp_within_witness :
  10 <= 240
  /\ clamp PInf (Fin 10) (Fin 240) = Fin 240
  /\ clamp (Fin 125) (Fin 10) (Fin 240) = Fin 125.
Proof.
  assert (Hle : 10 <= 240) by discriminate.
  split; [exact Hle|].
  destruct (clamp_within (Fin 125) 10 240 Hle) as (_ & Hin & _).
  split; [reflexivity|]. apply (Hin 125 eq_refl). split; discriminate.
Defined.

Lemma tooltipHeight_cases p selected :
  tooltipHeight p selected = Fin 65 \/ tooltipHeight p selected = Fin 50.
Proof.
  unfold tooltipHeight. destruct (shown_mcap p selected); [left | right];
    reflexivity.
Qed.

(** X9.  In a viewport at least [150] wide, for a crosshair between [-5]
    and [width + 5], the tooltip box, [130] wide, lies within the viewport
    with a margin of [10] on both sides.  It starts [15] to the right of a
    crosshair at most [width - 160], and ends [15] to the left of a
    crosshair beyond that (once the crosshair is at [155] or more). *)
Theorem tooltipX_inside p (x : Q) :
  150 <= dim_width (dimensions p) ->
  - 5 <= x <= dim_width (dimensions p) + 5 ->
  exists tx : Q,
    tooltipX p (Fin x) = Fin tx
    /\ 10 <= tx /\ tx + 130 <= dim_width (dimensions p) - 10
    /\ (x <= dim_width (dimensions p) - 160 -> tx == x + 15)
    /\ (dim_width (dimensions p) - 160 < x -> 155 <= x -> tx + 130 == x - 15).
Proof.
  intros HW Hx. unfold tooltipX, tooltipWidth, width, JS.gt, of_Z.
  set (W := dim_width (dimensions p)) in *.
  change (Fin W - Fin (inject_Z 130) - Fin (inject_Z 30))%num
    with (Fin (W + - 130 + - 30)).
  change (Fin x - Fin (inject_Z 130) - Fin (inject_Z 15))%num
    with (Fin (x + - 130 + - 15)).
  change (Fin x + Fin (inject_Z 15))%num with (Fin (x + 15)).
  change (Fin W - Fin (inject_Z 130) - Fin (inject_Z 10))%num
    with (Fin (W + - 130 + - 10)).
  change (Fin (inject_Z 10)) with (Fin 10).
  destruct (JS.lt (Fin (W + - 130 + - 30)) (Fin x)) eqn:Eflip; fin_cmp.
  - unfold JS.max.
    destruct (JS.lt (Fin 10) (Fin (x + - 130 + - 15))) eqn:E; fin_cmp;
      eexists; (split; [reflexivity|]); arith_cases.
  - unfold JS.min.
    destruct (JS.lt (Fin (W + - 130 + - 10)) (Fin (x + 15))) eqn:E; fin_cmp;
      eexists; (split; [reflexivity|]); arith_cases.
Qed.

Lemma tooltipX_inside_witness :
  let p := default_props scenario_series 400 300 in
  (150 <= dim_width (dimensions p) /\ - 5 <= 340 <= dim_width (dimensions p) + 5)
  /\ exists tx : Q, tooltipX p (Fin 340) = Fin tx /\ tx + 130 == 340 - 15.
Proof.
  intros p.
  assert (HW : 150 <= dim_width (dimensions p)) by discriminate.
  assert (Hx : - 5 <= 340 <= dim_width (dimensions p) + 5)
    by (split; discriminate).
  split; [split; assumption|].
  destruct (tooltipX_inside p 340 HW Hx) as (tx & Htx & _ & _ & _ & Hleft).
  exists tx. split; [exact Htx|]. apply Hleft; [reflexivity | discriminate].
Defined.

(** X10.  In a viewport tall enough for the box and its two margins of
    [10], the tooltip box lies within the viewport vertically, whatever
    finite height the selected point is drawn at. *)
Theorem tooltipY_inside p selected (y th : Q) :
  tooltipHeight p selected = Fin th ->
  th + 20 <= dim_height (dimensions p) ->
  exists ty : Q,
    tooltipY p selected (Fin y) = Fin ty
    /\ 10 <= ty /\ ty + th <= dim_height (dimensions p) - 10.
Proof.
  intros Hth Hh. unfold tooltipY. rewrite Hth. unfold height, of_Z.
  destruct (tooltipHeight_cases p selected) as [H65 | H50];
    rewrite Hth in *; injection H65 || injection H50; intros ->.
  - change (Fin y - Fin 65 / Fin (inject_Z 2))%num with (Fin (y + - (65 / 2))).
    change (Fin (dim_height (dimensions p)) - Fin 65 - Fin (inject_Z 10))%num
      with (Fin (dim_height (dimensions p) + - 65 + - 10)).
    change (Fin (inject_Z 10)) with (Fin 10).
    destruct (clamp_range_aux (Fin (y + - (65 / 2))) 10
                (dim_height (dimensions p) + - 65 + - 10)) as (r & Hr & Hrange);
      [lra | discriminate |].
    exists r. split; [exact Hr | lra].
  - change (Fin y - Fin 50 / Fin (inject_Z 2))%num with (Fin (y + - (50 / 2))).
    change (Fin (dim_height (dimensions p)) - Fin 50 - Fin (inject_Z 10))%num
      with (Fin (dim_height (dimensions p) + - 50 + - 10)).
    change (Fin (inject_Z 10)) with (Fin 10).
    destruct (clamp_range_aux (Fin (y + - (50 / 2))) 10
                (dim_height (dimensions p) + - 50 + - 10)) as (r & Hr & Hrange);
      [lra | discriminate |].
    exists r. split; [exact Hr | lra].
Qed.

Lemma tooltipY_inside_witness :
  let p := default_props scenario_series 400 300 in
  (tooltipHeight p (point 60 110) = Fin 50
   /\ 50 + 20 <= dim_height (dimensions p))
  /\ exists ty : Q,
       tooltipY p (point 60 110) (Fin 20) = Fin ty
       /\ 10 <= ty /\ ty + 50 <= dim_height (dimensions p) - 10.
Proof.
  intros p.
  assert (Hh : 50 + 20 <= dim_height (dimensions p)) by discriminate.
  split; [split; [reflexivity | exact Hh]|].
  exact (tooltipY_inside p (point 60 110) 20 50 eq_refl Hh).
Defined.

(** ** The nearest point *)

Lemma inject_Z_le_pred (j r : Z) :
  (j <= r - 1)%Z -> inject_Z j <= inject_Z r - 1.
Proof.
  intros H. rewrite Zle_Qle in H. unfold Z.sub in H.
  rewrite inject_Z_plus, inject_Z_opp in H.
  change (inject_Z 1) with 1 in H. lra.
Qed.

Lemma inject_Z_ge_succ (j r : Z) :
  (r + 1 <= j)%Z -> inject_Z r + 1 <= inject_Z j.
Proof.
  intros H. rewrite Zle_Qle in H.
  rewrite inject_Z_plus in H. change (inject_Z 1) with 1 in H. lra.
Qed.

Lemma clamp_Z (r hi : Z) :
  (0 <= hi)%Z ->
  clamp (Fin (inject_Z r)) zero (Fin (inject_Z hi))
  = Fin (inject_Z (Z.min (Z.max r 0) hi)).
Proof.
  intros Hhi. unfold clamp, zero. change (Fin 0) with (Fin (inject_Z 0)).
  unfold JS.max. rewrite lt_inject_Z.
  destruct (r <? 0)%Z eqn:E1; unfold JS.min; rewrite lt_inject_Z.
  - apply Z.ltb_lt in E1.
    destruct (hi <? 0)%Z eqn:E2; [apply Z.ltb_lt in E2; lia|].
    rewrite Z.max_r, Z.min_l by lia. reflexivity.
  - apply Z.ltb_ge in E1. rewrite Z.max_l by lia.
    destruct (hi <? r)%Z eqn:E2.
    + apply Z.ltb_lt in E2. rewrite Z.min_r by lia. reflexivity.
    + apply Z.ltb_ge in E2. rewrite Z.min_l by lia. reflexivity.
Qed.

(** Rounding then clamping picks, among the integers of [0 .. hi], one that
    is nearest to [t]. *)
Lemma round_clamp_nearest (t : Q) (hi j : Z) :
  (0 <= hi)%Z -> (0 <= j <= hi)%Z ->
  Qabs (inject_Z (Z.min (Z.max (Qfloor (t + (1 # 2))) 0) hi) - t)
  <= Qabs (inject_Z j - t).
Proof.
  intros Hhi Hj.
  pose proof (Qfloor_le (t + (1 # 2))) as Hfl.
  pose proof (Qlt_floor (t + (1 # 2))) as Hfu.
  rewrite inject_Z_plus in Hfu. change (inject_Z 1) with 1 in Hfu.
  set (r := Qfloor (t + (1 # 2))) in *.
  assert (Hj0 : 0 <= inject_Z j)
    by (change 0 with (inject_Z 0); rewrite <- Zle_Qle; lia).
  assert (Hjh : inject_Z j <= inject_Z hi) by (rewrite <- Zle_Qle; lia).
  destruct (Z_lt_le_dec r 0) as [Hneg | Hnn].
  - rewrite Z.max_r, Z.min_l by lia.
    assert (Hr : inject_Z r <= 0 - 1) by (apply inject_Z_le_pred; lia).
    change (inject_Z 0) with 0.
    split_abs (0 - t); split_abs (inject_Z j - t); lra.
  - rewrite Z.max_l by lia.
    destruct (Z_lt_le_dec hi r) as [Hover | Hin].
    + rewrite Z.min_r by lia.
      assert (Hr : inject_Z hi + 1 <= inject_Z r)
        by (apply inject_Z_ge_succ; lia).
      split_abs (inject_Z hi - t); split_abs (inject_Z j - t); lra.
    + rewrite Z.min_l by lia.
      destruct (Z_lt_le_dec j r) as [Hlt | Hge].
      * assert (Hjr : inject_Z j <= inject_Z r - 1)
          by (apply inject_Z_le_pred; lia).
        split_abs (inject_Z r - t); split_abs (inject_Z j - t); lra.
      * destruct (Z.eq_dec j r) as [-> | Hne]; [lra|].
        assert (Hjr : inject_Z r + 1 <= inject_Z j)
          by (apply inject_Z_ge_succ; lia).
        split_abs (inject_Z r - t); split_abs (inject_Z j - t); lra.
Qed.



(** ** Pointer gestures *)

Lemma render_log host ctx p c :
  selections (render host ctx p c) = selections c
  /\ vibrations (render host ctx p c) = vibrations c
  /\ capture (render host ctx p c) = capture c.
Proof.
  unfold render.
  destruct (appRef c); [|repeat split].
  destruct (graphicsRef c) as [layers|]; [|repeat split].
  destruct (zero_viewport p); [repeat split|].
  destruct (data p) as [|d rest]; [repeat split|].
  destruct (getGradientTexture_frame ctx (width p) (chartHeight p) (lineColor p)
              (set_yAxis (advance (yAxisRef c)) c)) as (g & u & Hs & _).
  destruct (getGradientTexture ctx (width p) (chartHeight p) (lineColor p)
              (set_yAxis (advance (yAxisRef c)) c)) as [t c2].
  simpl in Hs. subst c2.
  destruct (needsAnimation (advance (yAxisRef c))); repeat split.
Qed.

(** X12.  On a non-empty series, a pointer-move over a mounted container
    whose quotient of line 774 is a number stores the index of a point of
    the series and, when the caller gave [onPriceSelect], calls it once,
    with that very point. *)
Theorem handlePointerMove_reports host ctx p clientX clientY rl rt c :
  data p <> [] -> onPriceSelect p = true ->
  (((clientX - rl) - left (padding p)) / pointSpacing p)%num <> NaN ->
  let c' := handlePointerMove host ctx p clientX clientY (Some (rl, rt)) c in
  exists k point,
    nth_error (data p) k = Some point
    /\ as_index (selectedIndex (interactionRef c')) = Some k
    /\ crosshairX (interactionRef c') = (clientX - rl)%num
    /\ selections c' = Some point :: selections c.
Proof.
  intros Hd Hcb Hq c'.
  destruct (nearestIndex_in_range p (clientX - rl)%num Hd Hq) as (k & Hk & Hlt).
  destruct (nth_error (data p) k) as [point|] eqn:Hnth;
    [|apply nth_error_None in Hnth; lia].
  exists k, point. split; [exact Hnth|].
  unfold c', handlePointerMove.
  match goal with
  | |- context [render host ctx p ?x] =>
      destruct (render_keeps host ctx p x) as [_ Hi];
      destruct (render_log host ctx p x) as (Hsel & _ & _)
  end.
  rewrite Hi, Hsel. unfold data_at. rewrite Hk, Hnth.
  unfold select. rewrite Hcb. simpl.
  split; [exact Hk | split; reflexivity].
Qed.

Lemma handlePointerMove_reports_witness :
  let p := with_reference None None (default_props scenario_series 400 300) in
  let q := {| data := data p; markers := markers p; lineColor := lineColor p;
              gridColor := gridColor p; crosshairColor := crosshairColor p;
              showAxisLabels := showAxisLabels p; showGrid := showGrid p;
              onPriceSelect := true; currentMcap := None;
              currentPrice := None; dimensions := dimensions p |} in
  (data q <> [] /\ onPriceSelect q = true)
  /\ selections (handlePointerMove sample_host true q (Fin 185) (Fin 100)
                   (Some (Fin 0, Fin 0)) mounted)
     = [Some (point 60 110)].
Proof.
  intros p q. assert (Hd : data q <> []) by discriminate.
  split; [split; [exact Hd | reflexivity]|].
  destruct (handlePointerMove_reports sample_host true q (Fin 185) (Fin 100)
              (Fin 0) (Fin 0) mounted Hd eq_refl)
    as (k & pt & Hnth & Hidx & _ & Hsel); [discriminate|].
  rewrite Hsel. injection Hidx as <-. injection Hnth as <-. reflexivity.
Defined.

Lemma handlePointerLeave_effect host ctx p c :
  interactionRef (handlePointerLeave host ctx p c)
  = clear_crosshair (interactionRef c)
  /\ selections (handlePointerLeave host ctx p c)
     = (if onPriceSelect p then None :: selections c else selections c).
Proof.
  unfold handlePointerLeave.
  match goal with
  | |- context [render host ctx p ?x] =>
      destruct (render_keeps host ctx p x) as [_ Hi];
      destruct (render_log host ctx p x) as (Hsel & _ & _)
  end.
  rewrite Hi, Hsel. unfold select.
  destruct (onPriceSelect p); split; reflexivity.
Qed.

(** X13.  Pointer-leave puts the crosshair and the selected index back to
    [-1], leaves the long-press flag and timer alone, and calls
    [onPriceSelect], when there is one, with [null].  With a surface and a
    non-zero viewport, the frame it draws has an empty overlay and an empty
    tooltip. *)
Theorem handlePointerLeave_clears host ctx p c :
  let c' := handlePointerLeave host ctx p c in
  interactionRef c' = clear_crosshair (interactionRef c)
  /\ selectedPoint p (interactionRef c') = None
  /\ (onPriceSelect p = true -> selections c' = None :: selections c)
  /\ (forall layers,
        appRef c = true -> graphicsRef c = Some layers ->
        zero_viewport p = false ->
        exists drawn,
          graphicsRef c' = Some drawn
          /\ overlayLayer drawn = [] /\ tooltipContainer drawn = []).
Proof.
  intros c'. unfold c'.
  destruct (handlePointerLeave_effect host ctx p c) as [Hi Hsel].
  split; [exact Hi|]. split; [now rewrite Hi|].
  split; [intros Hcb; now rewrite Hsel, Hcb|].
  intros layers Happ Hg Hz. unfold handlePointerLeave.
  set (c1 := select p None
               (set_interaction (clear_crosshair (interactionRef c)) c)).
  assert (Happ1 : appRef c1 = true)
    by (unfold c1, select; destruct (onPriceSelect p); exact Happ).
  assert (Hg1 : graphicsRef c1 = Some layers)
    by (unfold c1, select; destruct (onPriceSelect p); exact Hg).
  assert (Hi1 : interactionRef c1 = clear_crosshair (interactionRef c))
    by (unfold c1, select; destruct (onPriceSelect p); reflexivity).
  destruct (data p) as [|d rest] eqn:Hd.
  - unfold render. rewrite Happ1, Hg1, Hz, Hd.
    eexists. split; [reflexivity|]. split; reflexivity.
  - assert (Hne : data p <> []) by (rewrite Hd; discriminate).
    destruct (render_frame host ctx p c1 layers Happ1 Hg1 Hz Hne)
      as (_ & _ & _ & _ & _ & (t & Hdrawn)).
    rewrite Hdrawn. eexists. split; [reflexivity|].
    unfold drawn_frame. cbn [overlayLayer tooltipContainer].
    unfold draw_overlay, draw_tooltip. rewrite Hi1. split; reflexivity.
Qed.

Lemma handlePointerLeave_clears_witness :
  let p := default_props scenario_series 400 300 in
  let c := crosshair_at 185 1 mounted in
  (appRef c = true /\ graphicsRef c = Some new_layers
   /\ zero_viewport p = false)
  /\ selectedPoint p (interactionRef c) = Some (point 60 110)
  /\ exists drawn,
       graphicsRef (handlePointerLeave sample_host true p c) = Some drawn
       /\ overlayLayer drawn = [] /\ tooltipContainer drawn = [].
Proof.
  intros p c. split; [repeat split|]. split; [reflexivity|].
  destruct (handlePointerLeave_clears sample_host true p c)
    as (_ & _ & _ & Hdraw).
  exact (Hdraw new_layers eq_refl eq_refl eq_refl).
Defined.

Lemma longPress_effect host ctx p h c :
  existsb (Nat.eqb h) (timeouts c) = true ->
  timeouts (longPress host ctx p h c) = remove_handle h (timeouts c)
  /\ isLongPress (interactionRef (longPress host ctx p h c)) = true
  /\ vibrations (longPress host ctx p h c)
     = (if vibrate_supported host then of_Z 20 :: vibrations c
        else vibrations c).
Proof.
  intros E. unfold longPress. rewrite E.
  match goal with
  | |- context [render host ctx p ?x] =>
      destruct (render_keeps host ctx p x) as [Ht Hi];
      destruct (render_log host ctx p x) as (_ & Hv & _)
  end.
  rewrite Ht, Hi, Hv. unfold triggerHaptic.
  destruct (vibrate_supported host); repeat split.
Qed.


(** X15.  The cleanup of the surface effect can run twice, or on a chart
    whose surface was never created: after it the application reference and
    the cached texture are gone, a second cleanup changes nothing, and
    [render] draws nothing. *)
Theorem cleanup_idempotent c :
  cleanup (cleanup c) = cleanup c
  /\ appRef (cleanup c) = false
  /\ texture (gradientCacheRef (cleanup c)) = None
  /\ (appRef c = false -> texture (gradientCacheRef c) = None ->
      cleanup c = c)
  /\ (forall host ctx p, render host ctx p (cleanup c) = cleanup c).
Proof.
  assert (Hself : forall c0, appRef c0 = false ->
            texture (gradientCacheRef c0) = None -> cleanup c0 = c0).
  { intros c0 Ha Ht. unfold cleanup. now rewrite Ha, Ht. }
  assert (Happ : appRef (cleanup c) = false).
  { unfold cleanup. destruct (appRef c) eqn:Ha;
      destruct (texture (gradientCacheRef _)); simpl; auto. }
  assert (Htex : texture (gradientCacheRef (cleanup c)) = None).
  { unfold cleanup. destruct (appRef c).
    - destruct (texture (gradientCacheRef (set_surface false false c))) eqn:Ht;
        [reflexivity | exact Ht].
    - destruct (texture (gradientCacheRef c)) eqn:Ht;
        [reflexivity | exact Ht]. }
  split; [now apply Hself|]. split; [exact Happ|]. split; [exact Htex|].
  split; [exact (Hself c)|].
  intros host ctx p. unfold render. now rewrite Happ.
Qed.

Lemma cleanup_idempotent_witness :
  (appRef initial = false /\ texture (gradientCacheRef initial) = None)
  /\ cleanup initial = initial.
Proof.
  split; [split; reflexivity|].
  destruct (cleanup_idempotent initial) as (_ & _ & _ & Hnever & _).
  exact (Hnever eq_refl eq_refl).
Defined.

Lemma eqb_refl_num (a : num) : a <> NaN -> (a =? a)%num = true.
Proof.
  destruct a as [| | |q]; intros H; [congruence | reflexivity | reflexivity|].
  apply Qeq_bool_refl.
Qed.

(** X16.  Once a request for a size that is not [NaN] has been answered
    with a texture, the same request again is answered with the same
    texture and changes nothing: no texture is destroyed and none is made,
    whether or not a 2d context could be had. *)
Theorem getGradientTexture_repeat ctx w h color c :
  w <> NaN -> h <> NaN ->
  let r := getGradientTexture true w h color c in
  (exists t, fst r = Some t)
  /\ getGradientTexture ctx w h color (snd r) = r.
Proof.
  intros Hw Hh r. unfold r, getGradientTexture.
  destruct (cache_hit (gradientCacheRef c) w h color) as [t|] eqn:Hhit.
  - split; [now exists t|]. simpl. now rewrite Hhit.
  - cbn [negb]. cbv iota.
    split; [eexists; reflexivity|].
    simpl. unfold cache_hit. simpl.
    now rewrite (eqb_refl_num w Hw), (eqb_refl_num h Hh), String.eqb_refl.
Qed.

Lemma getGradientTexture_repeat_witness :
  (Fin 400 <> NaN /\ Fin 250 <> NaN)
  /\ getGradientTexture false (Fin 400) (Fin 250) "#09090b"
       (snd (getGradientTexture true (Fin 400) (Fin 250) "#09090b" initial))
     = getGradientTexture true (Fin 400) (Fin 250) "#09090b" initial.
Proof.
  assert (Hw : Fin 400 <> NaN) by discriminate.
  assert (Hh : Fin 250 <> NaN) by discriminate.
  split; [split; assumption|].
  exact (proj2 (getGradientTexture_repeat false (Fin 400) (Fin 250) "#09090b"
                  initial Hw Hh)).
Defined.

(** ** Markers *)

Lemma findIndex_none l t k :
  findIndex l t k = None
  <-> forall d, In d l -> (timestamp d =? t)%num = false.
Proof.
  revert k. induction l as [|d l IH]; intros k; simpl.
  - split; [intros _ d [] | reflexivity].
  - destruct (timestamp d =? t)%num eqn:E.
    + split; [discriminate|]. intros H.
      specialize (H d (or_introl eq_refl)). congruence.
    + rewrite IH. split.
      * intros H d' [<- | Hin]; [exact E | now apply H].
      * intros H d' Hin. apply H. now right.
Qed.

Lemma findIndex_first pre d post t k :
  (forall d', In d' pre -> (timestamp d' =? t)%num = false) ->
  (timestamp d =? t)%num = true ->
  findIndex (pre ++ d :: post)%list t k = Some (k + List.length pre)%nat.
Proof.
  revert k. induction pre as [|d0 pre IH]; intros k Hpre Hd; simpl.
  - rewrite Hd. f_equal. lia.
  - rewrite (Hpre d0 (or_introl eq_refl)).
    rewrite IH; [f_equal; lia | | exact Hd].
    intros d' Hin. apply Hpre. now right.
Qed.

(** X17.  A marker whose timestamp is the timestamp of no point of the
    series draws nothing; so does every marker whose timestamp is [NaN].  A
    marker whose timestamp is in the series draws one closed, filled
    triangle, placed at the first point that has this timestamp. *)
Theorem draw_marker_at_first_match p a marker :
  ((forall d, In d (data p) ->
              (timestamp d =? marker_timestamp marker)%num = false) ->
   draw_marker p a marker = [])
  /\ (marker_timestamp marker = NaN -> draw_marker p a marker = [])
  /\ (forall pre d post,
        data p = (pre ++ d :: post)%list ->
        (forall d', In d' pre ->
                    (timestamp d' =? marker_timestamp marker)%num = false) ->
        (timestamp d =? marker_timestamp marker)%num = true ->
        exists y1 x2 y2 x3 y3 color,
          draw_marker p a marker
          = [ MoveTo (indexToX p (of_nat (List.length pre))) y1;
              LineTo x2 y2; LineTo x3 y3; ClosePath; Fill color None ]).
Proof.
  split; [|split].
  - intros Hnone. unfold draw_marker.
    now rewrite (proj2 (findIndex_none (data p) (marker_timestamp marker) 0)).
  - intros Hnan. unfold draw_marker.
    rewrite (proj2 (findIndex_none (data p) (marker_timestamp marker) 0));
      [reflexivity|].
    intros d _. rewrite Hnan. now destruct (timestamp d).
  - intros pre d post Hdata Hpre Hd. unfold draw_marker.
    rewrite Hdata, (findIndex_first pre d post _ 0 Hpre Hd). simpl Nat.add.
    destruct (marker_type marker); repeat eexists.
Qed.

Lemma draw_marker_at_first_match_witness :
  let p := default_props scenario_series 400 300 in
  let a := {| axis_min := Fin 88; axis_max := Fin 112;
              targetMin := Fin 88; targetMax := Fin 112 |} in
  let absent := {| marker_timestamp := Fin 30; marker_price := Fin 100;
                   marker_type := buy; marker_label := None |} in
  (forall d, In d (data p) ->
             (timestamp d =? marker_timestamp absent)%num = false)
  /\ draw_marker p a absent = [].
Proof.
  intros p a absent.
  assert (Hnone : forall d, In d (data p) ->
            (timestamp d =? marker_timestamp absent)%num = false).
  { intros d [<- | [<- | [<- | []]]]; reflexivity. }
  split; [exact Hnone|].
  exact (proj1 (draw_marker_at_first_match p a absent) Hnone).
Defined.

(** ** The colour memo *)

Lemma cache_get_head hex v m : cache_get hex ((hex, v) :: m) = Some v.
Proof. simpl. now rewrite String.eqb_refl. Qed.

(** X18.  The memo of [hexToNumber] is transparent: from a memo whose
    bindings are what parsing their keys gives, and so from the empty one,
    a call returns what parsing the string gives and leaves such a memo,
    in which the string is bound to that number. *)
Theorem hexToNumber_memo_transparent hex m :
  memo_sound m ->
  fst (hexToNumber_memo hex m) = hexToNumber hex
  /\ memo_sound (snd (hexToNumber_memo hex m))
  /\ cache_get hex (snd (hexToNumber_memo hex m)) = Some (hexToNumber hex).
Proof.
  intros Hm. unfold hexToNumber_memo.
  destruct (cache_get hex m) as [v|] eqn:Hget; simpl.
  - pose proof (Hm hex v Hget) as ->. repeat split; assumption.
  - split; [reflexivity|]. split.
    + intros k v. simpl. destruct (String.eqb hex k) eqn:E.
      * apply String.eqb_eq in E. subst k. now intros [= <-].
      * apply Hm.
    + now rewrite String.eqb_refl.
Qed.

Lemma hexToNumber_memo_transparent_witness :
  memo_sound []
  /\ fst (hexToNumber_memo "#09090b" []) = Fin 592139
  /\ fst (hexToNumber_memo "#09090b" (snd (hexToNumber_memo "#09090b" [])))
     = Fin 592139.
Proof.
  assert (H0 : memo_sound []) by (intros k v H; discriminate H).
  split; [exact H0|].
  destruct (hexToNumber_memo_transparent "#09090b" [] H0) as (H1 & Hs & _).
  split; [exact H1|].
  exact (proj1 (hexToNumber_memo_transparent "#09090b" _ Hs)).
Defined.

(** ** Parsing a colour *)

Lemma hex_value_range c d : hex_value c = Some d -> (0 <= d < 16)%Z.
Proof.
  unfold hex_value.
  destruct ((48 <=? _)%Z && (_ <=? 57)%Z) eqn:E1.
  - intros [= <-]. apply andb_true_iff in E1. lia.
  - destruct ((97 <=? _)%Z && (_ <=? 102)%Z) eqn:E2.
    + intros [= <-]. apply andb_true_iff in E2. lia.
    + destruct ((65 <=? _)%Z && (_ <=? 70)%Z) eqn:E3; [|discriminate].
      intros [= <-]. apply andb_true_iff in E3. lia.
Qed.

Lemma hex_prefix_all s :
  all_hex s = true ->
  forall acc, (0 <= acc)%Z ->
  exists v, hex_prefix s (Some acc) = Some v
            /\ (acc * 16 ^ Z.of_nat (String.length s) <= v
                < (acc + 1) * 16 ^ Z.of_nat (String.length s))%Z.
Proof.
  induction s as [|c s IH]; intros Hall acc Hacc.
  - exists acc. split; [reflexivity|]. simpl. lia.
  - simpl in Hall. simpl hex_prefix.
    destruct (hex_value c) as [d|] eqn:Hc; [|discriminate].
    pose proof (hex_value_range c d Hc) as Hd.
    destruct (IH Hall (acc * 16 + d)%Z) as (v & Hv & Hrange); [lia|].
    exists v. split; [exact Hv|].
    cbn [String.length]. rewrite Nat2Z.inj_succ, Z.pow_succ_r by lia.
    nia.
Qed.

Lemma parseInt16_hex c rest :
  all_hex (String c rest) = true ->
  parseInt16 (String c rest)
  = match hex_prefix (String c rest) None with
    | Some v => of_Z v
    | None => NaN
    end.
Proof.
  intros H.
  destruct c as [[] [] [] [] [] [] [] []]; simpl in H; try discriminate H;
    try reflexivity.
  destruct rest as [|c2 r2]; [reflexivity|].
  destruct c2 as [[] [] [] [] [] [] [] []]; simpl in H; try discriminate H;
    reflexivity.
Qed.



(** ** Rounding in [formatCurrencyCompact] *)

Local Open Scope Q_scope.

Lemma Qfloor_unique (y : Q) (z : Z) :
  inject_Z z <= y -> y < inject_Z z + 1 -> Qfloor y = z.
Proof.
  intros Hlo Hhi.
  pose proof (Qfloor_le y) as Hfl. pose proof (Qlt_floor y) as Hfu.
  assert (H1 : inject_Z (Qfloor y) < inject_Z (z + 1)).
  { rewrite inject_Z_plus. change (inject_Z 1) with 1. lra. }
  assert (H2 : inject_Z z < inject_Z (Qfloor y + 1)) by lra.
  rewrite <- Zlt_Qlt in H1, H2. lia.
Qed.

Lemma ge_Fin_of_Z_false (v : Q) (k : Z) :
  v < inject_Z k -> (Fin v >=? of_Z k)%num = false.
Proof.
  intros H. destruct (Fin v >=? of_Z k)%num eqn:E; [|reflexivity].
  unfold of_Z in E. apply ge_Fin in E. lra.
Qed.

Lemma ge_Fin_of_Z_true (v : Q) (k : Z) :
  inject_Z k <= v -> (Fin v >=? of_Z k)%num = true.
Proof. intros H. unfold of_Z. now apply ge_Fin. Qed.

(** What [toFixed] gives for a value, not negative and below [10^21],
    whose scaling by [10^f] rounds to [n]. *)
Lemma toFixed_of_nearest host (q : Q) (f : nat) (n : Z) :
  0 <= q -> q < inject_Z (pow10 21) ->
  inject_Z n <= q * inject_Z (pow10 f) + (1 # 2) ->
  q * inject_Z (pow10 f) + (1 # 2) < inject_Z n + 1 ->
  toFixed host (Fin q) f = fixed_digits n f.
Proof.
  intros Hq Hbig Hlo Hhi. unfold toFixed, sign_prefix.
  assert (Habs : Qabs q == q) by (apply Qabs_pos; exact Hq).
  destruct (Qle_bool (inject_Z (pow10 21)) (Qabs q)) eqn:E.
  - apply Qle_bool_iff in E. exfalso. lra.
  - destruct (qneg q) eqn:Hneg; [apply qneg_true in Hneg; exfalso; lra|].
    simpl append. f_equal. unfold nearest. apply Qfloor_unique; nra.
Qed.

Ltac currency_guards :=
  unfold formatCurrencyCompact;
  rewrite (proj2 (eqb_Fin_false _ 0)) by lra;
  repeat first
    [ rewrite ge_Fin_of_Z_false
        by (match goal with |- _ < inject_Z ?k =>
              change (inject_Z k) with (k # 1) end; lra)
    | rewrite ge_Fin_of_Z_true
        by (match goal with |- inject_Z ?k <= _ =>
              change (inject_Z k) with (k # 1) end; lra) ].

(** X20.  [formatCurrencyCompact] picks the unit before it rounds, so a
    value that rounds up to the next unit keeps the smaller one: from
    [999.995] to below [1000] it gives ["$1000.00"], from [999950] to below
    a million ["$1000.0K"], and from [999995000] to below a billion
    ["$1000.00M"]. *)
Theorem formatCurrencyCompact_rounds_up host (v : Q) :
  (999.995 <= v < 1000 -> formatCurrencyCompact host (Fin v) = "$1000.00")
  /\ (999950 <= v < 1000000 ->
      formatCurrencyCompact host (Fin v) = "$1000.0K")
  /\ (999995000 <= v < 1000000000 ->
      formatCurrencyCompact host (Fin v) = "$1000.00M").
Proof.
  split; [|split]; intros Hv.
  - currency_guards.
    rewrite (toFixed_of_nearest host v 2 100000).
    + reflexivity.
    + lra.
    + change (inject_Z (pow10 21)) with 1000000000000000000000. lra.
    + change (inject_Z (pow10 2)) with 100.
      change (inject_Z 100000) with 100000. lra.
    + change (inject_Z (pow10 2)) with 100.
      change (inject_Z 100000) with 100000. lra.
  - currency_guards.
    unfold of_Z. rewrite div_Fin by (intros H; discriminate H).
    assert (Hq : v / inject_Z 1000 * 1000 == v)
      by (field; intros H; discriminate H).
    set (q := v / inject_Z 1000) in *.
    rewrite (toFixed_of_nearest host q 1 10000).
    + reflexivity.
    + lra.
    + change (inject_Z (pow10 21)) with 1000000000000000000000. lra.
    + change (inject_Z (pow10 1)) with 10.
      change (inject_Z 10000) with 10000. lra.
    + change (inject_Z (pow10 1)) with 10.
      change (inject_Z 10000) with 10000. lra.
  - currency_guards.
    unfold of_Z. rewrite div_Fin by (intros H; discriminate H).
    assert (Hq : v / inject_Z 1000000 * 1000000 == v)
      by (field; intros H; discriminate H).
    set (q := v / inject_Z 1000000) in *.
    rewrite (toFixed_of_nearest host q 2 100000).
    + reflexivity.
    + lra.
    + change (inject_Z (pow10 21)) with 1000000000000000000000. lra.
    + change (inject_Z (pow10 2)) with 100.
      change (inject_Z 100000) with 100000. lra.
    + change (inject_Z (pow10 2)) with 100.
      change (inject_Z 100000) with 100000. lra.
Qed.

Lemma formatCurrencyCompact_rounds_up_witness :
  999950 <= 999960 < 1000000
  /\ formatCurrencyCompact sample_host (Fin 999960) = "$1000.0K".
Proof.
  assert (Hv : 999950 <= 999960 < 1000000)
    by (split; [discriminate | reflexivity]).
  split; [exact Hv|].
  destruct (formatCurrencyCompact_rounds_up sample_host 999960) as (_ & HK & _).
  exact (HK Hv).
Defined.

(** ** What a frame draws *)

Lemma getGradientTexture_graphics ctx w h color l c :
  getGradientTexture ctx w h color (set_graphics l c)
  = (fst (getGradientTexture ctx w h color c),
     set_graphics l (snd (getGradientTexture ctx w h color c))).
Proof.
  unfold getGradientTexture. simpl gradientCacheRef.
  destruct (cache_hit (gradientCacheRef c) w h color); [reflexivity|].
  destruct ctx; reflexivity.
Qed.

(** X21.  Nothing drawn by an earlier frame survives a frame: with a
    surface and a non-zero viewport, and apart from the gradient sprite,
    which is kept until a texture replaces it, the chart that [render]
    leaves does not depend on what the layers held before. *)
Theorem render_overwrites_layers host ctx p c l1 l2 :
  appRef c = true -> zero_viewport p = false ->
  gradientSprite l1 = gradientSprite l2 ->
  render host ctx p (set_graphics (Some l1) c)
  = render host ctx p (set_graphics (Some l2) c).
Proof.
  intros Happ Hz Hs. unfold render. simpl appRef. simpl graphicsRef.
  rewrite Happ, Hz.
  destruct (data p) as [|d rest].
  - unfold clear_layers. rewrite Hs. reflexivity.
  - change (set_yAxis (advance (yAxisRef (set_graphics (Some l1) c)))
              (set_graphics (Some l1) c))
      with (set_graphics (Some l1) (set_yAxis (advance (yAxisRef c)) c)).
    change (set_yAxis (advance (yAxisRef (set_graphics (Some l2) c)))
              (set_graphics (Some l2) c))
      with (set_graphics (Some l2) (set_yAxis (advance (yAxisRef c)) c)).
    rewrite !getGradientTexture_graphics.
    destruct (getGradientTexture_frame ctx (width p) (chartHeight p)
                (lineColor p) (set_yAxis (advance (yAxisRef c)) c))
      as (g & u & Hsnd & _).
    destruct (getGradientTexture ctx (width p) (chartHeight p) (lineColor p)
                (set_yAxis (advance (yAxisRef c)) c)) as [t c2].
    simpl in Hsnd. subst c2. simpl fst. simpl snd.
    unfold drawn_frame, place_sprite. rewrite Hs.
    destruct (needsAnimation _); reflexivity.
Qed.

Lemma render_overwrites_layers_witness :
  let p := default_props scenario_series 400 300 in
  let stale :=
    {| gridLayer := []; gradientSprite := new_sprite; gradientMask := [];
       chartLayer := [MoveTo (Fin 10) (Fin 20); LineTo (Fin 30) (Fin 40); Stroke];
       labelsContainer := []; overlayLayer := [Stroke];
       tooltipContainer := [] |} in
  (appRef mounted = true /\ zero_viewport p = false
   /\ gradientSprite stale = gradientSprite new_layers)
  /\ render sample_host true p (set_graphics (Some stale) mounted)
     = render sample_host true p (set_graphics (Some new_layers) mounted).
Proof.
  intros p stale. split; [repeat split|].
  exact (render_overwrites_layers sample_host true p mounted stale new_layers
           eq_refl eq_refl eq_refl).
Defined.

(** X22.  A frame does not fail with the gradient: whether or not a 2d
    context can be had, a frame that passes the guards of [render] draws
    the same grid, mask, price line, labels, crosshair and tooltip, and is
    presented. *)
Theorem render_without_context host p c layers :
  appRef c = true -> graphicsRef c = Some layers ->
  zero_viewport p = false -> data p <> [] ->
  exists with_context without,
    graphicsRef (render host true p c) = Some with_context
    /\ graphicsRef (render host false p c) = Some without
    /\ gridLayer without = gridLayer with_context
    /\ gradientMask without = gradientMask with_context
    /\ chartLayer without = chartLayer with_context
    /\ labelsContainer without = labelsContainer with_context
    /\ overlayLayer without = overlayLayer with_context
    /\ tooltipContainer without = tooltipContainer with_context
    /\ chartLayer without = draw_chart p (advance (yAxisRef c))
    /\ presented (render host false p c) = S (presented c).
Proof.
  intros Happ Hg Hz Hd.
  destruct (render_frame host true p c layers Happ Hg Hz Hd)
    as (_ & _ & _ & _ & _ & (t1 & H1)).
  destruct (render_frame host false p c layers Happ Hg Hz Hd)
    as (_ & _ & _ & Hp & _ & (t2 & H2)).
  eexists _, _. split; [exact H1|]. split; [exact H2|].
  repeat split. exact Hp.
Qed.

Lemma render_without_context_witness :
  let p := default_props scenario_series 400 300 in
  (appRef mounted = true /\ graphicsRef mounted = Some new_layers
   /\ zero_viewport p = false /\ data p <> [])
  /\ presented (render sample_host false p mounted) = 1%nat.
Proof.
  intros p. assert (Hd : data p <> []) by discriminate.
  split; [repeat split; exact Hd|].
  destruct (render_without_context sample_host p mounted new_layers
              eq_refl eq_refl eq_refl Hd)
    as (w1 & w2 & _ & _ & _ & _ & _ & _ & _ & _ & _ & Hp).
  exact Hp.
Defined.

(** ** The dashes of the crosshair *)

Lemma loop_values_spec (a b s : Q) (y : num) :
  0 < s ->
  In y (loop_values (Fin a) (Fin b) (Fin s))
  <-> exists k : nat,
        y = Fin (a + s * inject_Z (Z.of_nat k))
        /\ a + s * inject_Z (Z.of_nat k) < b.
Proof.
  intros Hs. unfold loop_values.
  assert (Hneg : qneg (- s) = true) by (apply qneg_true; lra).
  rewrite Hneg, in_map_iff.
  pose proof (Qle_ceiling ((b - a) / s)) as Hup.
  pose proof (Qceiling_lt ((b - a) / s)) as Hlow.
  assert (Hx : (b - a) / s * s == b - a) by (field; lra).
  set (x := (b - a) / s) in *.
  split.
  - intros (k & <- & Hin). apply in_seq in Hin. exists k.
    split; [reflexivity|].
    assert (Hk : (Z.of_nat k <= Qceiling x - 1)%Z) by lia.
    rewrite Zle_Qle in Hk. nra.
  - intros (k & -> & Hlt). exists k. split; [reflexivity|].
    apply in_seq. split; [lia|]. simpl.
    assert (Hk : inject_Z (Z.of_nat k) < inject_Z (Qceiling x)) by nra.
    rewrite <- Zlt_Qlt in Hk. lia.
Qed.

(** X23.  The dashes of a crosshair guide drawn from [lo] towards [hi]
    start at [lo], [lo + 8], [lo + 16], ..., each strictly before [hi]; a
    dash is at most [4] long and is cut at [hi]: none reaches beyond the
    edge of the chart area. *)
Theorem dashes_inside (lo hi : Q) (py : num) :
  In py (loop_values (Fin lo) (Fin hi) (DASH_LENGTH + GAP_LENGTH)%num) ->
  exists (k : nat) (v e : Q),
    py = Fin v /\ v == lo + 8 * inject_Z (Z.of_nat k)
    /\ JS.min (py + DASH_LENGTH)%num (Fin hi) = Fin e
    /\ lo <= v /\ v < e /\ e <= hi /\ e <= v + 4.
Proof.
  intros Hin.
  change (DASH_LENGTH + GAP_LENGTH)%num
    with (Fin (inject_Z 4 + inject_Z 4)) in Hin.
  apply loop_values_spec in Hin; [|reflexivity].
  destruct Hin as (k & -> & Hlt).
  assert (HK : 0 <= inject_Z (Z.of_nat k))
    by (change 0 with (inject_Z 0); rewrite <- Zle_Qle; lia).
  change (inject_Z 4) with 4 in *.
  exists k, (lo + (4 + 4) * inject_Z (Z.of_nat k)).
  change (Fin (lo + (4 + 4) * inject_Z (Z.of_nat k)) + DASH_LENGTH)%num
    with (Fin (lo + (4 + 4) * inject_Z (Z.of_nat k) + 4)).
  unfold JS.min.
  destruct (JS.lt (Fin hi) (Fin (lo + (4 + 4) * inject_Z (Z.of_nat k) + 4)))
    eqn:E; fin_cmp;
    eexists; (split; [reflexivity|]); (split; [lra|]);
    (split; [reflexivity|]); repeat split; lra.
Qed.

Lemma dashes_inside_witness :
  In (Fin 28) (loop_values (Fin 20) (Fin 30) (DASH_LENGTH + GAP_LENGTH)%num)
  /\ exists e : Q,
       JS.min (Fin 28 + DASH_LENGTH)%num (Fin 30) = Fin e /\ e <= 30.
Proof.
  assert (Hin : In (Fin 28)
                   (loop_values (Fin 20) (Fin 30)
                      (DASH_LENGTH + GAP_LENGTH)%num))
    by (right; left; reflexivity).
  split; [exact Hin|].
  destruct (dashes_inside 20 30 (Fin 28) Hin)
    as (k & v & e & _ & _ & He & _ & _ & Hhi & _).
  exists e. split; [exact He | exact Hhi].
Defined.

(** ** The selection *)

Lemma as_index_same (i : num) (k : nat) :
  as_index i = Some k -> (i =~ of_nat k)%num.
Proof.
  unfold as_index. destruct i as [| | |q]; try discriminate.
  destruct (Qeq_bool q (inject_Z (Qfloor q)) && (0 <=? Qfloor q)%Z) eqn:E;
    [|discriminate].
  intros [= <-]. apply andb_true_iff in E. destruct E as [E1 E2].
  apply Qeq_bool_eq in E1. apply Z.leb_le in E2.
  unfold of_nat, of_Z. simpl. rewrite Z2Nat.id by exact E2. exact E1.
Qed.

(** X26.  The crosshair and the tooltip are drawn for a point of the series
    only: a selected point is the element of the series at the selected
    index, which is then an integer from [0] to [n - 1]; with any other
    index (as [-1], [NaN], an index past the end) the overlay and the
    tooltip stay empty. *)
Theorem selectedPoint_in_series host p a i :
  (forall selected,
     selectedPoint p i = Some selected ->
     exists k, (k < List.length (data p))%nat
               /\ nth_error (data p) k = Some selected
               /\ (selectedIndex i =~ of_nat k)%num)
  /\ (data_at (data p) (selectedIndex i) = None ->
      draw_overlay p a i = [] /\ draw_tooltip host p a i = []).
Proof.
  split.
  - intros selected Hsel. unfold selectedPoint in Hsel.
    destruct (_ && _); [|discriminate].
    unfold data_at in Hsel.
    destruct (as_index (selectedIndex i)) as [k|] eqn:Hk; [|discriminate].
    exists k. split; [|split].
    + apply nth_error_Some. congruence.
    + exact Hsel.
    + now apply as_index_same.
  - intros Hnone.
    assert (Hsel : selectedPoint p i = None).
    { unfold selectedPoint. rewrite Hnone. now destruct (_ && _). }
    unfold draw_overlay, draw_tooltip. now rewrite Hsel.
Qed.

Lemma selectedPoint_in_series_witness :
  let p := default_props scenario_series 400 300 in
  let a := {| axis_min := Fin 88; axis_max := Fin 112;
              targetMin := Fin 88; targetMax := Fin 112 |} in
  let i := {| isLongPress := false; longPressTimer := None;
              crosshairX := Fin 10; crosshairY := Fin 50;
              selectedIndex := NaN |} in
  data_at (data p) (selectedIndex i) = None
  /\ draw_overlay p a i = [] /\ draw_tooltip sample_host p a i = [].
Proof.
  intros p a i. split; [reflexivity|].
  exact (proj2 (selectedPoint_in_series sample_host p a i) eq_refl).
Defined.

Lemma render_targets host ctx p c :
  targetMin (yAxisRef (render host ctx p c)) = targetMin (yAxisRef c)
  /\ targetMax (yAxisRef (render host ctx p c)) = targetMax (yAxisRef c).
Proof.
  unfold render.
  destruct (appRef c); [|split; reflexivity].
  destruct (graphicsRef c) as [layers|]; [|split; reflexivity].
  destruct (zero_viewport p); [split; reflexivity|].
  destruct (data p) as [|d rest]; [split; reflexivity|].
  destruct (getGradientTexture_frame ctx (width p) (chartHeight p) (lineColor p)
              (set_yAxis (advance (yAxisRef c)) c)) as (g & u & Hs & _).
  destruct (getGradientTexture ctx (width p) (chartHeight p) (lineColor p)
              (set_yAxis (advance (yAxisRef c)) c)) as [t c2].
  simpl in Hs. subst c2.
  destruct (needsAnimation (advance (yAxisRef c))); split; reflexivity.
Qed.

(** X27.  When the data or the viewport changes on a ready chart with a
    non-zero viewport, the data effect clears the selection and sets the
    axis targets to the bounds of the new series; with a surface to draw
    on, the frame it draws has no crosshair and no tooltip. *)
Theorem dataEffect_resets host ctx p c :
  isPixiReady c = true -> zero_viewport p = false ->
  let c' := dataEffect host ctx p c in
  interactionRef c' = clear_crosshair (interactionRef c)
  /\ selectedPoint p (interactionRef c') = None
  /\ targetMin (yAxisRef c') = bounds_min (calculateYBounds (data p))
  /\ targetMax (yAxisRef c') = bounds_max (calculateYBounds (data p))
  /\ (forall layers,
        appRef c = true -> graphicsRef c = Some layers ->
        exists drawn,
          graphicsRef c' = Some drawn
          /\ overlayLayer drawn = [] /\ tooltipContainer drawn = []).
Proof.
  intros Hr Hz c'. unfold c', dataEffect. rewrite Hr, Hz. cbn [negb orb].
  cbv iota.
  match goal with
  | |- context [render host ctx p ?x] =>
      destruct (render_keeps host ctx p x) as [_ Hi];
      destruct (render_targets host ctx p x) as [Htmin Htmax];
      set (c1 := x) in *
  end.
  rewrite Hi, Htmin, Htmax.
  split; [reflexivity|]. split; [reflexivity|].
  split; [reflexivity|]. split; [reflexivity|].
  intros layers Happ Hg.
  destruct (data p) as [|d rest] eqn:Hd.
  - unfold render.
    change (appRef c1) with (appRef c). change (graphicsRef c1) with (graphicsRef c).
    rewrite Happ, Hg, Hz, Hd.
    eexists. split; [reflexivity|]. split; reflexivity.
  - assert (Hne : data p <> []) by (rewrite Hd; discriminate).
    destruct (render_frame host ctx p c1 layers Happ Hg Hz Hne)
      as (_ & _ & _ & _ & _ & (t & Hdrawn)).
    rewrite Hdrawn. eexists. split; [reflexivity|].
    unfold drawn_frame. cbn [overlayLayer tooltipContainer].
    unfold draw_overlay, draw_tooltip.
    change (interactionRef c1) with (clear_crosshair (interactionRef c)).
    split; reflexivity.
Qed.

Lemma dataEffect_resets_witness :
  let p := default_props scenario_series 400 300 in
  let c := crosshair_at 185 1 mounted in
  (isPixiReady c = true /\ zero_viewport p = false
   /\ selectedPoint p (interactionRef c) = Some (point 60 110))
  /\ selectedPoint p (interactionRef (dataEffect sample_host true p c)) = None.
Proof.
  intros p c. split; [repeat split|].
  destruct (dataEffect_resets sample_host true p c eq_refl eq_refl)
    as (_ & Hnone & _ & _ & _).
  exact Hnone.
Defined.

(** ** [lerp] *)


